(** * cfsm: a shallow embedding of the compile-time finite state machine

    The development follows [cfsm.hpp] (the C++14 and later variant, where
    the machine is instantiated over the parameter pack [states...]).

    - State classes are named by numbers; every live state object sits in an
      object store that maps its address to its dynamic class.  Hooks and
      transition functors are user code: a call to one of them is recorded as
      an event of the trace, in call order.  They are taken to return
      normally and not to call back into the machine.
    - A member function of [state_machine] is a computation over the machine
      (the member [p_current_state]) and the process-wide store.  It returns,
      throws [std::runtime_error], or has undefined behaviour (a null or
      dangling handle is dereferenced, an array is read out of bounds, an
      object is deleted twice).  A call that the compiler rejects
      ([static_assert], [enable_if]) is [Rejected].
    - [operator new] never fails here: the free store is unbounded. *)

From Stdlib Require Import NArith List String Ascii Lia Bool.
From Stdlib.Strings Require Import Byte.
From stdpp Require Import base option list gmap.
Import ListNotations.
Local Open Scope N_scope.

(** ** Data model *)

(** A state class ([state_a], [green_light], ...). *)
Abbreviation cls := nat (only parsing).

(** A pointer value; [nullptr] is address zero.  The same type stands for the
    opaque [void *dataptr] handed through to hooks. *)
Abbreviation ptr := N (only parsing).
Definition nullptr : ptr := 0.

(** [enum class alloc_type]. *)
Inductive alloc_type := LAZY | PREALLOCED | INTERNAL.

(** [std::runtime_error] with its [what()] text. *)
Inductive exn := runtime_error (what : string).

(** The calls into user code, as they happen. *)
Inductive event :=
| on_enter (c : cls) (this : ptr) (dataptr : ptr)
| on_exit (c : cls) (this : ptr) (dataptr : ptr)
| transition_action (from_state to_state : cls) (dataptr : ptr).

(** One instantiation [state_machine<base_state, type, state_pool, states...>]
    together with the user's classes and the platform it runs on. *)
Record config := {
  (** template parameter [type] *)
  alloc : alloc_type;
  (** template parameter [state_pool]: [None] is [nullptr], otherwise the
      contents of the caller's array of state handles *)
  state_pool : option (list ptr);
  (** template parameter pack [states...] *)
  states : list cls;
  (** [new_state::type_id()] *)
  type_id : cls -> nat;
  (** [transition<from_state, to_state>::exists] *)
  transition_exists : cls -> cls -> bool;
  (** the state classes a state class derives from (itself excluded) *)
  bases : cls -> list cls;
  (** [sizeof(p_current_state)] *)
  ptr_size : nat;
  (** the text [oss << state_pool] produces *)
  state_pool_text : string;
  (** the address [operator new] hands out, given the live objects *)
  operator_new : gmap N cls -> ptr;
  operator_new_fresh :
    forall h : gmap N cls,
      operator_new h <> nullptr /\ h !! operator_new h = None
}.

(** Process-wide memory: the live state objects with their dynamic class, the
    function-local static [pool_] of [get_pool], and the calls made so far. *)
Record world := {
  heap : gmap N cls;
  pool_ : option (list ptr);
  trace : list event
}.

(** The only data member of [state_machine]. *)
Record machine := { p_current_state : ptr }.

(** A freshly constructed machine: [p_current_state = nullptr]. *)
Definition fresh_machine : machine := {| p_current_state := nullptr |}.

(** ** Computations *)

Inductive outcome (A : Type) :=
| Returns (a : A) (m : machine) (w : world)
| Throws (e : exn) (m : machine) (w : world)
| Undefined
| Rejected.
Arguments Returns {A} a m w.
Arguments Throws {A} e m w.
Arguments Undefined {A}.
Arguments Rejected {A}.

Definition M (A : Type) := machine -> world -> outcome A.

Definition ret {A} (a : A) : M A := fun m w => Returns a m w.

Definition bind {A B} (c : M A) (k : A -> M B) : M B :=
  fun m w =>
    match c m w with
    | Returns a m' w' => k a m' w'
    | Throws e m' w' => Throws e m' w'
    | Undefined => Undefined
    | Rejected => Rejected
    end.

Declare Scope cfsm_scope.
Delimit Scope cfsm_scope with cfsm.
Notation "x <- c ;; k" := (bind c (fun x => k))
  (at level 100, c at next level, right associativity) : cfsm_scope.
Notation "c ;;; k" := (bind c (fun _ => k))
  (at level 100, right associativity) : cfsm_scope.
Local Open Scope cfsm_scope.

Definition throw {A} (e : exn) : M A := fun m w => Throws e m w.
Definition undefined {A} : M A := fun _ _ => Undefined.
Definition rejected {A} : M A := fun _ _ => Rejected.

Definition get_current : M ptr :=
  fun m w => Returns (p_current_state m) m w.

Definition set_current (p : ptr) : M unit :=
  fun _ w => Returns tt {| p_current_state := p |} w.

Definition emit (e : event) : M unit :=
  fun m w =>
    Returns tt m {| heap := heap w; pool_ := pool_ w; trace := trace w ++ [e] |}.

Definition get_static_pool : M (option (list ptr)) :=
  fun m w => Returns (pool_ w) m w.

Definition set_static_pool (o : option (list ptr)) : M unit :=
  fun m w => Returns tt m {| heap := heap w; pool_ := o; trace := trace w |}.

(** The dynamic class of the object behind a handle that is dereferenced. *)
Definition dynamic_type (p : ptr) : M cls :=
  fun m w =>
    match heap w !! p with
    | Some c => Returns c m w
    | None => Undefined
    end.

(** [new new_state()]: a fresh object of class [c] at the address
    [operator new] picks. *)
Definition new_ (cfg : config) (c : cls) : M ptr :=
  fun m w =>
    let p := operator_new cfg (heap w) in
    Returns p m {| heap := <[p := c]> (heap w); pool_ := pool_ w; trace := trace w |}.

(** [delete p]: nothing for [nullptr]; otherwise the object must be live. *)
Definition delete_ (p : ptr) : M unit :=
  fun m w =>
    if N.eqb p nullptr then Returns tt m w
    else match heap w !! p with
         | Some _ =>
             Returns tt m {| heap := delete p (heap w); pool_ := pool_ w; trace := trace w |}
         | None => Undefined
         end.

(** An object of class [c] is a [t] when [c] is [t] or derives from it. *)
Definition is_a (cfg : config) (c t : cls) : bool :=
  Nat.eqb c t || existsb (Nat.eqb t) (bases cfg c).

(** [dynamic_cast<t*>(p)]. *)
Definition dynamic_cast (cfg : config) (t : cls) (p : ptr) : M ptr :=
  if N.eqb p nullptr then ret nullptr
  else c <- dynamic_type p ;; ret (if is_a cfg c t then p else nullptr).

(** The virtual calls [p->on_enter(dataptr)] and [p->on_exit(dataptr)]. *)
Definition call_on_enter (p dataptr : ptr) : M unit :=
  c <- dynamic_type p ;; emit (on_enter c p dataptr).

Definition call_on_exit (p dataptr : ptr) : M unit :=
  c <- dynamic_type p ;; emit (on_exit c p dataptr).

(** ** The state allocator *)

(** [sizeof...(states)], the [size] argument of [state_allocator]. *)
Definition size (cfg : config) : nat := length (states cfg).

(** [is_valid_state<T>()]: [T] is one of [states...]. *)
Definition is_valid_state (cfg : config) (t : cls) : bool :=
  existsb (Nat.eqb t) (states cfg).

(** [state_allocator::state(pool, type_id)] over the caller's array. *)
Definition state_of_pool (cfg : config) (pool : option (list ptr)) (tid : nat)
  : M ptr :=
  if Nat.ltb tid (size cfg) then
    match pool with
    | Some slots =>
        match slots !! tid with
        | Some p => ret p
        | None => undefined
        end
    | None => undefined
    end
  else ret nullptr.

(** The constructor of [internal_state_pool]: [{ new states... }]. *)
Fixpoint new_states (cfg : config) (cs : list cls) : M (list ptr) :=
  match cs with
  | [] => ret []
  | c :: cs' => p <- new_ cfg c ;; ps <- new_states cfg cs' ;; ret (p :: ps)
  end.

(** The destructor of [internal_state_pool]: [delete pool_ptr[i]] in turn. *)
Fixpoint delete_states (ps : list ptr) : M unit :=
  match ps with
  | [] => ret tt
  | p :: ps' => delete_ p ;;; delete_states ps'
  end.

(** [get_pool()]: builds the pool on first use. *)
Definition get_pool (cfg : config) : M (list ptr) :=
  o <- get_static_pool ;;
  match o with
  | Some slots => ret slots
  | None =>
      slots <- new_states cfg (states cfg) ;;
      set_static_pool (Some slots) ;;;
      ret slots
  end.

(** [state_allocator::state(type_id)] over the internal pool. *)
Definition state_of_internal (cfg : config) (tid : nat) : M ptr :=
  slots <- get_pool cfg ;;
  if Nat.ltb tid (size cfg) then
    match slots !! tid with
    | Some p => ret p
    | None => undefined
    end
  else ret nullptr.

(** [state_allocator::delete_pool()], both overloads. *)
Definition delete_pool (cfg : config) : M unit :=
  match alloc cfg with
  | INTERNAL =>
      slots <- get_pool cfg ;;
      delete_states slots ;;;
      set_static_pool None
  | _ => ret tt
  end.

(** [allocate_state<new_state>()], the overload [type] selects. *)
Definition allocate_state (cfg : config) (new_state : cls) : M ptr :=
  match alloc cfg with
  | LAZY => new_ cfg new_state
  | PREALLOCED => state_of_pool cfg (state_pool cfg) (type_id cfg new_state)
  | INTERNAL => state_of_internal cfg (type_id cfg new_state)
  end.

(** [delete_current_state()]. *)
Definition delete_current_state (cfg : config) : M unit :=
  p <- get_current ;;
  match alloc cfg with
  | LAZY => delete_ p
  | _ => ret tt
  end ;;;
  set_current nullptr.

(** ** The public operations of [state_machine] *)

Definition null_state_error : exn := runtime_error "State pointer is null".

Definition allocation_error (cfg : config) : exn :=
  runtime_error
    ("Failed to allocate new state, state_pool: " ++ state_pool_text cfg).

(** [start<initial_state>(dataptr)]. *)
Definition start (cfg : config) (initial_state : cls) (dataptr : ptr) : M unit :=
  if negb (is_valid_state cfg initial_state) then rejected
  else
    p <- allocate_state cfg initial_state ;;
    set_current p ;;;
    if N.eqb p nullptr then throw null_state_error
    else call_on_enter p dataptr.

(** [transition<from_state, to_state>(dataptr)]. *)
Definition transition (cfg : config) (from_state to_state : cls) (dataptr : ptr)
  : M bool :=
  if negb (transition_exists cfg from_state to_state) then rejected
  else if negb (is_valid_state cfg from_state) then rejected
  else if negb (is_valid_state cfg to_state) then rejected
  else
    cur <- get_current ;;
    q <- dynamic_cast cfg from_state cur ;;
    if N.eqb q nullptr then ret false
    else
      cur <- get_current ;;
      if N.eqb cur nullptr then throw null_state_error
      else
        p_new_state <- allocate_state cfg to_state ;;
        if N.eqb p_new_state nullptr then throw (allocation_error cfg)
        else
          cur <- get_current ;;
          call_on_exit cur dataptr ;;;
          match alloc cfg with
          | LAZY => delete_ cur
          | _ => ret tt
          end ;;;
          emit (transition_action from_state to_state dataptr) ;;;
          set_current p_new_state ;;;
          call_on_enter p_new_state dataptr ;;;
          ret true.

(** [stop(dataptr)]. *)
Definition stop (cfg : config) (dataptr : ptr) : M unit :=
  cur <- get_current ;;
  if N.eqb cur nullptr then ret tt
  else
    call_on_exit cur dataptr ;;;
    delete_current_state cfg ;;;
    delete_pool cfg.

(** [state<state_type>()]. *)
Definition state (cfg : config) (state_type : cls) : M ptr :=
  cur <- get_current ;;
  dynamic_cast cfg state_type cur.

(** [~state_machine()]. *)
Definition destroy (cfg : config) : M unit :=
  cur <- get_current ;;
  if N.eqb cur nullptr then ret tt
  else
    delete_current_state cfg ;;;
    delete_pool cfg.

(** ** Handle transplant: [save] and [load] *)

(** The object representation of a pointer: [k] bytes, least significant
    first (the byte order is the platform's; it only has to be the same when
    writing and reading). *)
Definition byte_of_N (n : N) : byte :=
  match Byte.of_N (n mod 256) with
  | Some b => b
  | None => x00
  end.

Fixpoint encode_ptr (k : nat) (p : ptr) : list byte :=
  match k with
  | O => []
  | S k' => byte_of_N p :: encode_ptr k' (p / 256)
  end.

Fixpoint decode_ptr (bs : list byte) : ptr :=
  match bs with
  | [] => 0
  | b :: bs' => Byte.to_N b + 256 * decode_ptr bs'
  end.

(** The values a pointer of [ptr_size] bytes can hold. *)
Definition fits (cfg : config) (p : ptr) : Prop :=
  p < 2 ^ (8 * N.of_nat (ptr_size cfg)).

(** [save(pdata, datalen)]: the result is the [std::size_t] returned and the
    buffer as the call leaves it.  [pdata = None] is a null buffer pointer. *)
Definition save (cfg : config) (pdata : option (list byte)) (datalen : nat)
  : M (nat * option (list byte)) :=
  match pdata with
  | None => ret (O, None)
  | Some buf =>
      if Nat.ltb datalen (ptr_size cfg) then ret (O, Some buf)
      else if Nat.ltb (length buf) (ptr_size cfg) then undefined
      else
        cur <- get_current ;;
        set_current nullptr ;;;
        ret (ptr_size cfg,
             Some (encode_ptr (ptr_size cfg) cur ++ drop (ptr_size cfg) buf))
  end.

(** [load(pdata, datalen)]. *)
Definition load (cfg : config) (pdata : option (list byte)) (datalen : nat)
  : M nat :=
  match pdata with
  | None => ret O
  | Some buf =>
      if Nat.ltb datalen (ptr_size cfg) then ret O
      else if Nat.ltb (length buf) (ptr_size cfg) then undefined
      else
        set_current (decode_ptr (take (ptr_size cfg) buf)) ;;;
        ret (ptr_size cfg)
  end.

(** ** Vocabulary of the statements *)

(** [(from_state, to_state)] is a registered edge between declared states:
    the call [transition<from_state, to_state>] compiles. *)
Definition registered (cfg : config) (from_state to_state : cls) : bool :=
  transition_exists cfg from_state to_state
  && is_valid_state cfg from_state
  && is_valid_state cfg to_state.

(** The slots of the internal pool, when it exists, are pairwise distinct
    live objects: what its destructor relies on. *)
Fixpoint distinct_live (h : gmap N cls) (ps : list ptr) : bool :=
  match ps with
  | [] => true
  | p :: ps' =>
      match h !! p with
      | Some _ => negb (N.eqb p nullptr) && distinct_live (delete p h) ps'
      | None => false
      end
  end.

Definition pool_intact (w : world) : bool :=
  match pool_ w with
  | Some slots => distinct_live (heap w) slots
  | None => true
  end.

(** The machine is in a state of class [c]: its handle is not null and
    refers to a live object whose dynamic class is [c]. *)
Definition current_is (m : machine) (w : world) (c : cls) : Prop :=
  p_current_state m <> nullptr /\ heap w !! p_current_state m = Some c.

(** Exit without matching entry: the call ends in the allocation error
    after an exit hook has run in it. *)
Definition exit_without_entry (cfg : config) (from_state to_state : cls)
    (dataptr : ptr) (m : machine) (w : world) : Prop :=
  exists m' w' evs c p,
    transition cfg from_state to_state dataptr m w
      = Throws (allocation_error cfg) m' w'
    /\ trace w' = trace w ++ evs
    /\ In (on_exit c p dataptr) evs.

(** A transition that fires: it returns
    true with the handle [pn] installed, after exit, action and entry in
    that order, and introspection reports the target state. *)
Definition fired (cfg : config) (from_state to_state : cls) (dataptr : ptr)
    (m : machine) (w : world) (pn : ptr) : Prop :=
  exists w',
    transition cfg from_state to_state dataptr m w
      = Returns true {| p_current_state := pn |} w'
    /\ trace w' =
         trace w ++ [on_exit from_state (p_current_state m) dataptr;
                     transition_action from_state to_state dataptr;
                     on_enter to_state pn dataptr]
    /\ pn <> nullptr
    /\ state cfg to_state {| p_current_state := pn |} w'
         = Returns pn {| p_current_state := pn |} w'.

(** [start] followed by [stop]: both
    return, and together they make exactly the entry call and then the exit
    call on the object [p] of class [s]. *)
Definition started_then_stopped (cfg : config) (s : cls) (dataptr : ptr)
    (m : machine) (w : world) (p : ptr) : Prop :=
  exists w' w'',
    start cfg s dataptr m w = Returns tt {| p_current_state := p |} w'
    /\ stop cfg dataptr {| p_current_state := p |} w'
         = Returns tt fresh_machine w''
    /\ trace w'' = trace w ++ [on_enter s p dataptr; on_exit s p dataptr].

(** A computation that never throws. *)
Definition no_throw {A} (c : M A) : Prop :=
  forall m w e m' w', c m w <> Throws e m' w'.

(** A computation that leaves the machine alone and only adds objects to the
    store: no call into user code, nothing released. *)
Definition only_allocates {A} (c : M A) : Prop :=
  forall m w a m' w',
    c m w = Returns a m' w' ->
    m' = m /\ trace w' = trace w /\
    forall q k, heap w !! q = Some k -> heap w' !! q = Some k.

(** ** Example programs

    The three states and three edges of [examples/simple.cc]
    (a -> b, b -> a, a -> c), under several configurations. *)

Definition state_a : cls := 0%nat.
Definition state_b : cls := 1%nat.
Definition state_c : cls := 2%nat.

Definition simple_edges (from_state to_state : cls) : bool :=
  match from_state, to_state with
  | 0%nat, 1%nat | 1%nat, 0%nat | 0%nat, 2%nat => true
  | _, _ => false
  end.

(** An [operator new] that hands out the least free non-null address. *)
Definition first_free (h : gmap N cls) : ptr := fresh ({[nullptr]} ∪ dom h).

Definition first_free_fresh (h : gmap N cls) :
  first_free h <> nullptr /\ h !! first_free h = None.
Proof.
  unfold first_free.
  pose proof (is_fresh ({[nullptr]} ∪ dom h)) as Hf. split.
  - intros E. apply Hf. rewrite E. set_solver.
  - apply not_elem_of_dom. set_solver.
Qed.

Definition simple_cfg (a : alloc_type) (pool : option (list ptr))
    (parents : cls -> list cls) : config :=
  {| alloc := a;
     state_pool := pool;
     states := [state_a; state_b; state_c];
     type_id := fun c => c;
     transition_exists := simple_edges;
     bases := parents;
     ptr_size := 8;
     state_pool_text := "0x0";
     operator_new := first_free;
     operator_new_fresh := first_free_fresh |}.

Definition no_bases : cls -> list cls := fun _ => [].

(** Lazily allocated states, as in [test_lazy_allocator]. *)
Definition lazy_cfg : config := simple_cfg LAZY None no_bases.

(** A caller's array whose slot for [state_b] was left null. *)
Definition gap_pool : list ptr := [16; 0; 48].
Definition gap_cfg : config := simple_cfg PREALLOCED (Some gap_pool) no_bases.

(** A caller's array with an object of the right class in every slot. *)
Definition full_pool : list ptr := [16; 32; 48].
Definition ext_cfg : config := simple_cfg PREALLOCED (Some full_pool) no_bases.

(** A caller's array filled against the type identifiers: the slot of
    [state_a] holds the [state_b] object and the other way round. *)
Definition swapped_pool : list ptr := [32; 16; 48].
Definition swapped_cfg : config :=
  simple_cfg PREALLOCED (Some swapped_pool) no_bases.

(** Internally preallocated states, as in [test_preallocated_internal]. *)
Definition int_cfg : config := simple_cfg INTERNAL None no_bases.

(** [class state_b : public state_a]: a state class deriving from another. *)
Definition b_extends_a (c : cls) : list cls :=
  match c with
  | 1%nat => [state_a]
  | _ => []
  end.
Definition derived_cfg : config := simple_cfg LAZY None b_extends_a.

(** One live [state_a] object at address 16 and nothing else. *)
Definition world_a : world :=
  {| heap := {[ 16 := state_a ]}; pool_ := None; trace := [] |}.

(** One live [state_b] object at address 16. *)
Definition world_b : world :=
  {| heap := {[ 16 := state_b ]}; pool_ := None; trace := [] |}.

(** The caller's three objects, one per state class. *)
Definition world_abc : world :=
  {| heap := <[ 48 := state_c ]> (<[ 32 := state_b ]> {[ 16 := state_a ]});
     pool_ := None; trace := [] |}.

(** No object at all: before any [start]. *)
Definition world_0 : world := {| heap := ∅; pool_ := None; trace := [] |}.

(** A machine whose current state is the object at address 16. *)
Definition machine_16 : machine := {| p_current_state := 16 |}.

(** An eight-byte buffer, like the [long] of [test_serialization]. *)
Definition buffer8 : list byte := [x00; x00; x00; x00; x00; x00; x00; x00].

(** A buffer too short for a handle. *)
Definition buffer3 : list byte := [xff; xff; xff].

(** ** Further code of the header and of its callers *)

(** [gen_type_id()]: returns the function-local static [type_id_gen] and
    increments it.  The counter is a [std::size_t] of [bits] bits, so the
    increment wraps around.  The result is the value returned and the new
    counter. *)
Definition gen_type_id (bits : N) (type_id_gen : N) : N * N :=
  (type_id_gen, (type_id_gen + 1) mod 2 ^ bits).

(** [k] calls of [gen_type_id] in a row, as the initialisers of the static
    members [type_id_] of [k] state classes make them. *)
Fixpoint gen_type_ids (bits : N) (k : nat) (type_id_gen : N) : list N * N :=
  match k with
  | O => ([], type_id_gen)
  | S k' =>
      let (i, g1) := gen_type_id bits type_id_gen in
      let (ids, g2) := gen_type_ids bits k' g1 in
      (i :: ids, g2)
  end.

(** The C++14 replacements of [std::disjunction] and [std::conjunction],
    over the [value]s of the argument types. *)
Fixpoint disjunction (bs : list bool) : bool :=
  match bs with
  | [] => false
  | b1 :: bn =>
      match bn with
      | [] => b1
      | _ => if b1 then b1 else disjunction bn
      end
  end.

Fixpoint conjunction (bs : list bool) : bool :=
  match bs with
  | [] => true
  | b1 :: bn =>
      match bn with
      | [] => b1
      | _ => if b1 then conjunction bn else b1
      end
  end.

(** [is_valid_state<T>()] as the header computes it below C++17:
    [disjunction_v<std::is_same<T, states>...>]. *)
Definition is_valid_state_shim (cfg : config) (t : cls) : bool :=
  disjunction (map (fun s => Nat.eqb t s) (states cfg)).

(** [are_valid_states<base, derived...>::value]:
    [conjunction_v<is_base_of_v<base, derived>...>], given which classes
    derive from [base]. *)
Definition are_valid_states (is_base_of : cls -> bool) (derived : list cls)
  : bool :=
  conjunction (map is_base_of derived).

(** The slots hold, position by position, live objects of the classes
    [cs]. *)
Fixpoint typed_slots (h : gmap N cls) (ps : list ptr) (cs : list cls) : bool :=
  match ps, cs with
  | [], [] => true
  | p :: ps', c :: cs' =>
      match h !! p with
      | Some c' => Nat.eqb c' c && typed_slots h ps' cs'
      | None => false
      end
  | _, _ => false
  end.

(** The internal pool, when built, holds one object per declared state, in
    declaration order. *)
Definition pool_typed (cfg : config) (w : world) : bool :=
  match pool_ w with
  | Some slots => typed_slots (heap w) slots (states cfg)
  | None => true
  end.

(** The store with the objects at [ps] released. *)
Definition released (ps : list ptr) (h : gmap N cls) : gmap N cls :=
  foldr delete h ps.

(** The loop of [examples/benchmark.cc], from iteration [i], [n] iterations:
    [transition<a, b>] when [i] is even, [transition<b, a>] when it is odd;
    the result of the call is dropped. *)
Fixpoint ping_pong (cfg : config) (a b : cls) (dataptr : ptr) (i n : nat)
  : M unit :=
  match n with
  | O => ret tt
  | S n' =>
      (if Nat.even i then transition cfg a b dataptr
       else transition cfg b a dataptr) ;;;
      ping_pong cfg a b dataptr (S i) n'
  end.

(** [benchmark_state_machine_lazy(num_transitions)] of
    [examples/benchmark.cc], without its clock readings and output: the
    machine is started in [a], the loop runs twice (warm-up, then the timed
    run), and the machine is destroyed when the function returns. *)
Definition benchmark_state_machine (cfg : config) (a b : cls)
    (num_transitions : nat) : M unit :=
  start cfg a nullptr ;;;
  ping_pong cfg a b nullptr 0 num_transitions ;;;
  ping_pong cfg a b nullptr 0 num_transitions ;;;
  destroy cfg.

(** A computation that neither allocates nor releases: however it ends, the
    live objects and the internal pool are those it started with. *)
Definition keeps_store {A} (c : M A) : Prop :=
  forall m w,
    match c m w with
    | Returns _ _ w' | Throws _ _ w' =>
        heap w' = heap w /\ pool_ w' = pool_ w
    | _ => True
    end.

(** Two state classes for [examples/benchmark.cc], with both edges. *)
Definition bench_cfg : config :=
  {| alloc := LAZY;
     state_pool := None;
     states := [state_a; state_b];
     type_id := fun c => c;
     transition_exists := simple_edges;
     bases := no_bases;
     ptr_size := 8;
     state_pool_text := "0x0";
     operator_new := first_free;
     operator_new_fresh := first_free_fresh |}.

(** A caller's array for three states whose identifiers were generated
    after three other classes had taken 0, 1 and 2. *)
Definition shifted_cfg : config :=
  {| alloc := PREALLOCED;
     state_pool := Some full_pool;
     states := [state_a; state_b; state_c];
     type_id := fun c => (c + 3)%nat;
     transition_exists := simple_edges;
     bases := no_bases;
     ptr_size := 8;
     state_pool_text := "0x0";
     operator_new := first_free;
     operator_new_fresh := first_free_fresh |}.

(** The internal pool of [int_cfg] once built in an empty store. *)
Definition world_pool : world :=
  {| heap := <[3 := state_c]> (<[2 := state_b]> {[ 1 := state_a ]});
     pool_ := Some [1; 2; 3]; trace := [] |}.

(** ** Basic facts about the computations *)

Ltac unfold_ops :=
  unfold call_on_enter, call_on_exit in *;
  unfold bind, ret, throw, undefined, rejected, get_current, set_current,
    emit, get_static_pool, set_static_pool, dynamic_type, new_, delete_ in *.

Lemma eqb_null_false (p : ptr) : p <> nullptr -> N.eqb p nullptr = false.
Proof. intros H. now apply N.eqb_neq. Qed.

Lemma is_a_refl cfg c : is_a cfg c c = true.
Proof. unfold is_a. now rewrite Nat.eqb_refl. Qed.

Section NoThrow.
Context {A B : Type}.

Lemma no_throw_ret (a : A) : no_throw (ret a).
Proof. intros m w e m' w' H. discriminate H. Qed.

Lemma no_throw_undefined : no_throw (@undefined A).
Proof. intros m w e m' w' H. discriminate H. Qed.

Lemma no_throw_bind (c : M A) (k : A -> M B) :
  no_throw c -> (forall a, no_throw (k a)) -> no_throw (bind c k).
Proof.
  intros Hc Hk m w e m' w' H. unfold bind in H.
  destruct (c m w) as [a m1 w1 | e1 m1 w1 | | ] eqn:E; try discriminate.
  - now apply (Hk a m1 w1 e m' w').
  - now apply (Hc m w e1 m1 w1).
Qed.
End NoThrow.

Lemma no_throw_get_current : no_throw get_current.
Proof. intros m w e m' w' H. discriminate H. Qed.

Lemma no_throw_set_current p : no_throw (set_current p).
Proof. intros m w e m' w' H. discriminate H. Qed.

Lemma no_throw_emit ev : no_throw (emit ev).
Proof. intros m w e m' w' H. discriminate H. Qed.

Lemma no_throw_set_static_pool o : no_throw (set_static_pool o).
Proof. intros m w e m' w' H. discriminate H. Qed.

Lemma no_throw_get_static_pool : no_throw get_static_pool.
Proof. intros m w e m' w' H. discriminate H. Qed.

Lemma no_throw_dynamic_type p : no_throw (dynamic_type p).
Proof.
  intros m w e m' w' H. unfold dynamic_type in H.
  destruct (heap w !! p); discriminate H.
Qed.

Lemma no_throw_new cfg c : no_throw (new_ cfg c).
Proof. intros m w e m' w' H. discriminate H. Qed.

Lemma no_throw_delete p : no_throw (delete_ p).
Proof.
  intros m w e m' w' H. unfold delete_ in H.
  destruct (N.eqb p nullptr); [discriminate H|].
  destruct (heap w !! p); discriminate H.
Qed.

Create HintDb nothrow.
#[local] Hint Resolve no_throw_ret no_throw_undefined no_throw_bind
  no_throw_get_current no_throw_set_current no_throw_emit
  no_throw_set_static_pool no_throw_get_static_pool no_throw_dynamic_type
  no_throw_new no_throw_delete : nothrow.

Lemma no_throw_call_on_enter p d : no_throw (call_on_enter p d).
Proof. unfold call_on_enter. auto with nothrow. Qed.

Lemma no_throw_call_on_exit p d : no_throw (call_on_exit p d).
Proof. unfold call_on_exit. auto with nothrow. Qed.

Lemma no_throw_new_states cfg cs : no_throw (new_states cfg cs).
Proof.
  induction cs as [|c cs IH]; simpl; auto 6 with nothrow.
Qed.

Lemma no_throw_delete_states ps : no_throw (delete_states ps).
Proof.
  induction ps as [|p ps IH]; simpl; auto with nothrow.
Qed.

#[local] Hint Resolve no_throw_call_on_enter no_throw_call_on_exit
  no_throw_new_states no_throw_delete_states : nothrow.

Lemma no_throw_get_pool cfg : no_throw (get_pool cfg).
Proof.
  unfold get_pool. apply no_throw_bind; [auto with nothrow|].
  intros [slots|]; auto 6 with nothrow.
Qed.

#[local] Hint Resolve no_throw_get_pool : nothrow.

Lemma no_throw_allocate_state cfg c : no_throw (allocate_state cfg c).
Proof.
  unfold allocate_state, state_of_pool, state_of_internal.
  destruct (alloc cfg); [auto with nothrow| |].
  - destruct (Nat.ltb _ _); [|auto with nothrow].
    destruct (state_pool cfg) as [slots|]; [|auto with nothrow].
    destruct (slots !! _); auto with nothrow.
  - apply no_throw_bind; [auto with nothrow|]. intros slots.
    destruct (Nat.ltb _ _); [|auto with nothrow].
    destruct (slots !! _); auto with nothrow.
Qed.

Lemma no_throw_delete_pool cfg : no_throw (delete_pool cfg).
Proof.
  unfold delete_pool. destruct (alloc cfg); auto 6 with nothrow.
Qed.

Lemma no_throw_delete_current_state cfg : no_throw (delete_current_state cfg).
Proof.
  unfold delete_current_state.
  apply no_throw_bind; [auto with nothrow|]. intros p.
  apply no_throw_bind; [|auto with nothrow].
  destruct (alloc cfg); auto with nothrow.
Qed.

#[local] Hint Resolve no_throw_allocate_state no_throw_delete_pool
  no_throw_delete_current_state : nothrow.

(** *** [dynamic_cast] *)

Lemma dynamic_cast_null cfg t m w :
  dynamic_cast cfg t nullptr m w = Returns nullptr m w.
Proof. reflexivity. Qed.

Lemma dynamic_cast_live cfg t p c m w :
  p <> nullptr -> heap w !! p = Some c ->
  dynamic_cast cfg t p m w = Returns (if is_a cfg c t then p else nullptr) m w.
Proof.
  intros Hp Hc. unfold dynamic_cast. rewrite (eqb_null_false p Hp).
  unfold_ops. now rewrite Hc.
Qed.

Lemma dynamic_cast_inv cfg t p m w q m' w' :
  dynamic_cast cfg t p m w = Returns q m' w' ->
  m' = m /\ w' = w /\ (q = nullptr \/ (q = p /\ p <> nullptr)).
Proof.
  unfold dynamic_cast. destruct (N.eqb p nullptr) eqn:E.
  - unfold ret. intros H. injection H as <- <- <-. auto.
  - unfold_ops. destruct (heap w !! p) as [c|]; [|discriminate].
    intros H. injection H as <- <- <-. apply N.eqb_neq in E.
    destruct (is_a cfg c t); auto.
Qed.

Lemma no_throw_dynamic_cast cfg t p : no_throw (dynamic_cast cfg t p).
Proof.
  unfold dynamic_cast. destruct (N.eqb p nullptr); auto with nothrow.
Qed.

(** *** Allocation only adds objects *)

Lemma only_allocates_new cfg c : only_allocates (new_ cfg c).
Proof.
  intros m w a m' w' H. unfold new_ in H. injection H as <- <- <-. simpl.
  repeat split; [].
  intros q k Hq. destruct (operator_new_fresh cfg (heap w)) as [_ Hnone].
  rewrite lookup_insert_ne; [exact Hq|]. intros E. rewrite E in Hnone.
  congruence.
Qed.

Lemma only_allocates_new_states cfg cs : only_allocates (new_states cfg cs).
Proof.
  induction cs as [|c cs IH]; intros m w a m' w' H; simpl in H.
  - unfold ret in H. injection H as <- <- <-. auto.
  - unfold bind in H.
    destruct (new_ cfg c m w) as [p m1 w1| | |] eqn:E1; try discriminate.
    destruct (new_states cfg cs m1 w1) as [ps m2 w2| | |] eqn:E2;
      try discriminate.
    unfold ret in H. injection H as <- <- <-.
    apply only_allocates_new in E1 as (-> & T1 & H1).
    apply IH in E2 as (-> & T2 & H2).
    repeat split; [congruence|]. auto.
Qed.

Lemma only_allocates_get_pool cfg : only_allocates (get_pool cfg).
Proof.
  intros m w a m' w' H. unfold get_pool, bind, get_static_pool in H.
  destruct (pool_ w) as [slots|].
  - unfold ret in H. injection H as <- <- <-. auto.
  - destruct (new_states cfg (states cfg) m w) as [ps m1 w1| | |] eqn:E;
      try discriminate.
    unfold set_static_pool, ret in H. injection H as <- <- <-.
    apply only_allocates_new_states in E as (-> & T & Hh). simpl. auto.
Qed.

Lemma only_allocates_allocate_state cfg c :
  only_allocates (allocate_state cfg c).
Proof.
  intros m w a m' w' H. unfold allocate_state in H.
  destruct (alloc cfg).
  - now apply only_allocates_new in H.
  - unfold state_of_pool in H.
    destruct (Nat.ltb _ _).
    + destruct (state_pool cfg) as [slots|]; [|discriminate].
      destruct (slots !! _); [|discriminate].
      unfold ret in H. injection H as <- <- <-. auto.
    + unfold ret in H. injection H as <- <- <-. auto.
  - unfold state_of_internal, bind in H.
    destruct (get_pool cfg m w) as [slots m1 w1| | |] eqn:E; try discriminate.
    apply only_allocates_get_pool in E as (-> & T & Hh).
    destruct (Nat.ltb _ _).
    + destruct (slots !! _); [|discriminate].
      unfold ret in H. injection H as <- <- <-. auto.
    + unfold ret in H. injection H as <- <- <-. auto.
Qed.

(** The lazy allocator always yields a fresh object of the requested class. *)
Lemma allocate_state_lazy cfg c m w :
  alloc cfg = LAZY ->
  let p := operator_new cfg (heap w) in
  allocate_state cfg c m w =
    Returns p m {| heap := <[p := c]> (heap w); pool_ := pool_ w;
                   trace := trace w |}
  /\ p <> nullptr /\ heap w !! p = None.
Proof.
  intros Hl p. unfold allocate_state. rewrite Hl.
  destruct (operator_new_fresh cfg (heap w)) as [Hn Hf]. auto.
Qed.

(** *** Stepping through a computation *)

Lemma bind_returns {A B} (c : M A) (k : A -> M B) m w a m1 w1 :
  c m w = Returns a m1 w1 -> bind c k m w = k a m1 w1.
Proof. intros H. unfold bind. now rewrite H. Qed.

Lemma bind_get_current {B} (k : ptr -> M B) m w :
  bind get_current k m w = k (p_current_state m) m w.
Proof. reflexivity. Qed.

Lemma registered_inv cfg f t :
  registered cfg f t = true ->
  transition_exists cfg f t = true /\ is_valid_state cfg f = true
  /\ is_valid_state cfg t = true.
Proof.
  unfold registered. intros H.
  apply andb_true_iff in H as [H H3]. apply andb_true_iff in H as [H1 H2].
  auto.
Qed.

(** *** [transition] *)

(** A call whose type check fails returns false and touches nothing. *)
Lemma transition_mismatch cfg f t d m w :
  registered cfg f t = true ->
  dynamic_cast cfg f (p_current_state m) m w = Returns nullptr m w ->
  transition cfg f t d m w = Returns false m w.
Proof.
  intros Hr Hc. apply registered_inv in Hr as (H1 & H2 & H3).
  unfold transition. rewrite H1, H2, H3. simpl.
  rewrite bind_get_current. now rewrite (bind_returns _ _ _ _ _ _ _ Hc).
Qed.

(** The only exception [transition] lets out is the allocation error, and it
    is thrown straight after the allocator has returned null. *)
Lemma transition_throws_inv cfg f t d m w e m' w' :
  transition cfg f t d m w = Throws e m' w' ->
  e = allocation_error cfg /\ m' = m /\
  p_current_state m <> nullptr /\
  allocate_state cfg t m w = Returns nullptr m w'.
Proof.
  unfold transition.
  destruct (negb (transition_exists cfg f t)); [discriminate|].
  destruct (negb (is_valid_state cfg f)); [discriminate|].
  destruct (negb (is_valid_state cfg t)); [discriminate|].
  rewrite bind_get_current. unfold bind at 1.
  destruct (dynamic_cast cfg f (p_current_state m) m w)
    as [q m1 w1| e1 m1 w1 | |] eqn:Ec; try discriminate.
  2:{ now apply no_throw_dynamic_cast in Ec. }
  apply dynamic_cast_inv in Ec as (-> & -> & [-> | [-> Hp]]);
    [discriminate|].
  rewrite (eqb_null_false _ Hp), bind_get_current, (eqb_null_false _ Hp).
  unfold bind at 1.
  destruct (allocate_state cfg t m w) as [pn m1 w1| e1 m1 w1 | |] eqn:Ea;
    try discriminate.
  2:{ now apply no_throw_allocate_state in Ea. }
  pose proof (only_allocates_allocate_state cfg t _ _ _ _ _ Ea) as (-> & _).
  destruct (N.eqb pn nullptr) eqn:En.
  - apply N.eqb_eq in En as ->. unfold throw. intros H.
    injection H as <- <- <-. auto.
  - intros H. exfalso. revert H.
    apply no_throw_bind; [auto with nothrow|]. intros cur.
    apply no_throw_bind; [auto with nothrow|]. intros _.
    apply no_throw_bind; [destruct (alloc cfg); auto with nothrow|].
    intros _. auto 8 with nothrow.
Qed.

(** A call whose type check passes, and whose allocator yields an object,
    runs exit, action and entry and installs the new handle. *)
Lemma transition_fires cfg f t d m w c pn m1 w1 k :
  registered cfg f t = true ->
  current_is m w c -> is_a cfg c f = true ->
  allocate_state cfg t m w = Returns pn m1 w1 ->
  pn <> nullptr -> heap w1 !! pn = Some k ->
  exists w',
    transition cfg f t d m w = Returns true {| p_current_state := pn |} w'
    /\ trace w' =
         trace w ++ [on_exit c (p_current_state m) d;
                     transition_action f t d; on_enter k pn d]
    /\ heap w' !! pn = Some k
    /\ pool_ w' = pool_ w1.
Proof.
  intros Hr [Hp Hc] Hisa Ea Hpn Hk.
  apply registered_inv in Hr as (H1 & H2 & H3).
  pose proof (only_allocates_allocate_state cfg t _ _ _ _ _ Ea)
    as (-> & Ht & Hkeep).
  pose proof (Hkeep _ _ Hc) as Hc1.
  assert (Hhead : forall k0 : unit -> M bool,
    bind (call_on_exit (p_current_state m) d) k0 m w1 =
    k0 tt m {| heap := heap w1; pool_ := pool_ w1;
               trace := trace w1 ++ [on_exit c (p_current_state m) d] |}).
  { intros k0. unfold_ops. now rewrite Hc1. }
  unfold transition. rewrite H1, H2, H3. simpl.
  rewrite bind_get_current.
  rewrite (bind_returns _ _ _ _ _ _ _ (dynamic_cast_live cfg f _ c m w Hp Hc)).
  rewrite Hisa, (eqb_null_false _ Hp), bind_get_current,
    (eqb_null_false _ Hp).
  rewrite (bind_returns _ _ _ _ _ _ _ Ea), (eqb_null_false _ Hpn),
    bind_get_current, Hhead.
  destruct (alloc cfg) eqn:Hal.
  - (* LAZY: the old object is deleted; the new one is another object *)
    destruct (allocate_state_lazy cfg t m w Hal) as (Ea' & _ & Hfresh).
    rewrite Ea in Ea'. injection Ea' as Epn Ew1.
    assert (Hne : p_current_state m <> pn).
    { intros E. rewrite E, Epn in Hc. simpl in Hfresh. congruence. }
    unfold_ops. simpl. rewrite (eqb_null_false _ Hp), Hc1. simpl.
    rewrite lookup_delete_ne by exact Hne. rewrite Hk.
    eexists. split; [reflexivity|]. simpl.
    rewrite Ht, <- !app_assoc. simpl.
    rewrite lookup_delete_ne by exact Hne. auto.
  - unfold_ops. simpl. rewrite Hk.
    eexists. split; [reflexivity|]. simpl.
    rewrite Ht, <- !app_assoc. simpl. auto.
  - unfold_ops. simpl. rewrite Hk.
    eexists. split; [reflexivity|]. simpl.
    rewrite Ht, <- !app_assoc. simpl. auto.
Qed.

(** *** The internal pool *)

Lemma distinct_live_delete_other (ps : list N) : forall (h : gmap N cls) p,
  distinct_live h ps = true -> ~ In p ps ->
  distinct_live (delete p h) ps = true.
Proof.
  induction ps as [|q ps IH]; intros h p Hd Hin; [reflexivity|].
  simpl in *. destruct (h !! q) as [c|] eqn:Hq; [|discriminate].
  apply andb_true_iff in Hd as [Hq0 Hd].
  assert (Hne : p <> q) by (intros E; apply Hin; auto).
  rewrite lookup_delete_ne by exact Hne. rewrite Hq, Hq0. simpl.
  rewrite delete_delete. apply IH; [exact Hd|]. intros Hin'. apply Hin. auto.
Qed.

Lemma new_states_spec cfg cs : forall m w,
  exists ps w',
    new_states cfg cs m w = Returns ps m w'
    /\ pool_ w' = pool_ w
    /\ distinct_live (heap w') ps = true
    /\ (forall q, In q ps -> heap w !! q = None).
Proof.
  induction cs as [|c cs IH]; intros m w; simpl.
  - exists [], w. repeat split; auto. intros q [].
  - set (p := operator_new cfg (heap w)).
    set (w1 := {| heap := <[p := c]> (heap w); pool_ := pool_ w;
                  trace := trace w |}).
    destruct (IH m w1) as (ps & w' & E & Hpool & Hd & Hfresh).
    destruct (operator_new_fresh cfg (heap w)) as [Hp0 Hpf]. fold p in Hp0, Hpf.
    exists (p :: ps), w'.
    assert (Hnew : new_ cfg c m w = Returns p m w1) by reflexivity.
    rewrite (bind_returns _ _ _ _ _ _ _ Hnew), (bind_returns _ _ _ _ _ _ _ E).
    split; [reflexivity|]. split; [exact Hpool|].
    pose proof (only_allocates_new_states cfg cs _ _ _ _ _ E) as (_ & _ & Hk).
    assert (Hnotin : ~ In p ps).
    { intros Hin. apply Hfresh in Hin. simpl in Hin.
      rewrite lookup_insert_eq in Hin. discriminate. }
    split.
    + simpl. rewrite (Hk p c) by (simpl; apply lookup_insert_eq).
      rewrite (eqb_null_false _ Hp0). simpl.
      now apply distinct_live_delete_other.
    + intros q [<- | Hin]; [exact Hpf|].
      apply Hfresh in Hin. simpl in Hin.
      destruct (decide (p = q)) as [<- | Hne].
      * rewrite lookup_insert_eq in Hin. discriminate.
      * now rewrite lookup_insert_ne in Hin.
Qed.

Lemma delete_states_ok (ps : list N) : forall m w,
  distinct_live (heap w) ps = true ->
  exists w',
    delete_states ps m w = Returns tt m w'
    /\ trace w' = trace w /\ pool_ w' = pool_ w.
Proof.
  induction ps as [|p ps IH]; intros m w Hd; simpl in *.
  - exists w. auto.
  - destruct (heap w !! p) as [c|] eqn:Hp; [|discriminate].
    apply andb_true_iff in Hd as [Hp0 Hd].
    apply negb_true_iff in Hp0.
    set (w1 := {| heap := delete p (heap w); pool_ := pool_ w;
                  trace := trace w |}).
    destruct (IH m w1 Hd) as (w' & E & Ht & Hpl).
    exists w'. split; [|auto].
    assert (Hdel : delete_ p m w = Returns tt m w1).
    { unfold delete_. now rewrite Hp0, Hp. }
    now rewrite (bind_returns _ _ _ _ _ _ _ Hdel).
Qed.

Lemma get_pool_spec cfg m w :
  pool_intact w = true ->
  exists slots w1,
    get_pool cfg m w = Returns slots m w1
    /\ trace w1 = trace w
    /\ pool_ w1 = Some slots
    /\ distinct_live (heap w1) slots = true.
Proof.
  intros Hi. unfold get_pool, pool_intact in *.
  rewrite (bind_returns _ _ _ _ (pool_ w) m w) by reflexivity.
  destruct (pool_ w) as [slots|] eqn:Hp.
  - exists slots, w. auto.
  - destruct (new_states_spec cfg (states cfg) m w)
      as (ps & w' & E & _ & Hd & _).
    pose proof (only_allocates_new_states cfg _ _ _ _ _ _ E) as (_ & Ht & _).
    exists ps, {| heap := heap w'; pool_ := Some ps; trace := trace w' |}.
    rewrite (bind_returns _ _ _ _ _ _ _ E). auto.
Qed.

Lemma allocate_state_pool_intact cfg c m w p m1 w1 :
  (alloc cfg = INTERNAL -> pool_intact w = true) ->
  allocate_state cfg c m w = Returns p m1 w1 ->
  alloc cfg = INTERNAL -> pool_intact w1 = true.
Proof.
  intros Hi Ea Hal. specialize (Hi Hal).
  unfold allocate_state in Ea. rewrite Hal in Ea.
  unfold state_of_internal in Ea.
  destruct (get_pool_spec cfg m w Hi) as (slots & w2 & E & _ & Hp & Hd).
  rewrite (bind_returns _ _ _ _ _ _ _ E) in Ea.
  assert (w1 = w2) as ->.
  { destruct (Nat.ltb _ _); [destruct (slots !! _)|];
      unfold ret, undefined in Ea; congruence. }
  unfold pool_intact. now rewrite Hp.
Qed.

(** *** [start] and [stop] *)

Lemma start_returns cfg s d m w p m1 w1 k :
  is_valid_state cfg s = true ->
  allocate_state cfg s m w = Returns p m1 w1 ->
  p <> nullptr -> heap w1 !! p = Some k ->
  start cfg s d m w =
    Returns tt {| p_current_state := p |}
      {| heap := heap w1; pool_ := pool_ w1;
         trace := trace w ++ [on_enter k p d] |}.
Proof.
  intros Hv Ea Hp Hk. unfold start. rewrite Hv. simpl.
  pose proof (only_allocates_allocate_state cfg s _ _ _ _ _ Ea) as (_ & Ht & _).
  rewrite (bind_returns _ _ _ _ _ _ _ Ea). unfold_ops.
  rewrite (eqb_null_false _ Hp), Hk, Ht. reflexivity.
Qed.

Lemma start_null_handle cfg s d m w m1 w1 :
  is_valid_state cfg s = true ->
  allocate_state cfg s m w = Returns nullptr m1 w1 ->
  start cfg s d m w = Throws null_state_error fresh_machine w1.
Proof.
  intros Hv Ea. unfold start. rewrite Hv. simpl.
  now rewrite (bind_returns _ _ _ _ _ _ _ Ea).
Qed.

(** [stop] without a current state does nothing at all. *)
Lemma stop_not_started cfg d m w :
  p_current_state m = nullptr -> stop cfg d m w = Returns tt m w.
Proof.
  intros H. unfold stop. rewrite bind_get_current, H. reflexivity.
Qed.

(** Releasing the pool leaves the machine's own handle alone. *)
Lemma delete_states_machine (ps : list N) : forall m w m' w',
  delete_states ps m w = Returns tt m' w' -> m' = m.
Proof.
  induction ps as [|q qs IH]; intros m w m' w' H; simpl in H.
  - unfold ret in H. now injection H as <- <-.
  - unfold bind, delete_ in H.
    destruct (N.eqb q nullptr); [now apply IH in H|].
    destruct (heap w !! q); [now apply IH in H|discriminate].
Qed.

Lemma delete_pool_machine cfg m w m' w' :
  delete_pool cfg m w = Returns tt m' w' -> m' = m.
Proof.
  unfold delete_pool. destruct (alloc cfg).
  - unfold ret. intros H. now injection H as <- <-.
  - unfold ret. intros H. now injection H as <- <-.
  - unfold bind at 1.
    destruct (get_pool cfg m w) as [slots m1 w1| | |] eqn:Eg;
      try discriminate.
    apply only_allocates_get_pool in Eg as (-> & _).
    unfold bind at 1.
    destruct (delete_states slots m w1) as [[] m2 w2| | |] eqn:Ed;
      try discriminate.
    apply delete_states_machine in Ed as ->.
    unfold set_static_pool. intros H. now injection H as <- <-.
Qed.

Lemma delete_current_state_clears cfg m w m' w' :
  delete_current_state cfg m w = Returns tt m' w' ->
  p_current_state m' = nullptr.
Proof.
  unfold delete_current_state. rewrite bind_get_current. unfold bind.
  set (c := match alloc cfg with
            | LAZY => delete_ (p_current_state m)
            | _ => ret tt
            end).
  destruct (c m w) as [[] m1 w1| | |]; try discriminate.
  unfold set_current. intros H. now injection H as <- <-.
Qed.

(** When [stop] returns, the machine holds no state. *)
Lemma stop_clears cfg d m w m' w' :
  stop cfg d m w = Returns tt m' w' -> p_current_state m' = nullptr.
Proof.
  unfold stop. rewrite bind_get_current.
  destruct (N.eqb (p_current_state m) nullptr) eqn:E.
  - unfold ret. intros H. injection H as <- <-. now apply N.eqb_eq in E.
  - unfold bind at 1.
    destruct (call_on_exit _ _ m w) as [[] m1 w1| | |]; try discriminate.
    unfold bind at 1.
    destruct (delete_current_state cfg m1 w1) as [[] m2 w2| | |] eqn:Ed;
      try discriminate.
    intros H. apply delete_pool_machine in H as ->.
    now apply delete_current_state_clears in Ed.
Qed.

(** A started machine stops: the exit hook of the current state runs once. *)
Lemma stop_returns cfg d m w c :
  current_is m w c ->
  (alloc cfg = INTERNAL -> pool_intact w = true) ->
  exists w',
    stop cfg d m w = Returns tt fresh_machine w'
    /\ trace w' = trace w ++ [on_exit c (p_current_state m) d].
Proof.
  intros [Hp Hc] Hi. unfold stop.
  rewrite bind_get_current, (eqb_null_false _ Hp).
  set (w1 := {| heap := heap w; pool_ := pool_ w;
                trace := trace w ++ [on_exit c (p_current_state m) d] |}).
  assert (Hexit : call_on_exit (p_current_state m) d m w = Returns tt m w1).
  { unfold_ops. now rewrite Hc. }
  rewrite (bind_returns _ _ _ _ _ _ _ Hexit).
  unfold delete_current_state, delete_pool.
  destruct (alloc cfg) eqn:Hal.
  - unfold_ops. simpl. rewrite (eqb_null_false _ Hp), Hc.
    eexists. split; reflexivity.
  - unfold_ops. simpl. eexists. split; reflexivity.
  - assert (Hi1 : pool_intact w1 = true) by (apply Hi; reflexivity).
    destruct (get_pool_spec cfg fresh_machine w1 Hi1)
      as (slots & w2 & Eg & Ht2 & _ & Hd).
    destruct (delete_states_ok slots fresh_machine w2 Hd)
      as (w3 & Ed & Ht3 & _).
    exists {| heap := heap w3; pool_ := None; trace := trace w3 |}.
    split.
    + assert (Hcl : (p <- get_current ;; ret tt ;;; set_current nullptr) m w1
                    = Returns tt fresh_machine w1) by reflexivity.
      rewrite (bind_returns _ _ _ _ _ _ _ Hcl).
      rewrite (bind_returns _ _ _ _ _ _ _ Eg).
      rewrite (bind_returns _ _ _ _ _ _ _ Ed). reflexivity.
    + simpl. now rewrite Ht3, Ht2.
Qed.

(** *** The byte representation of a handle *)

Lemma to_N_byte_of_N n : Byte.to_N (byte_of_N n) = n mod 256.
Proof.
  unfold byte_of_N. destruct (Byte.of_N (n mod 256)) as [b|] eqn:E.
  - now apply Byte.to_of_N.
  - apply Byte.of_N_None_iff in E.
    assert (n mod 256 < 256) by (apply N.mod_upper_bound; discriminate).
    lia.
Qed.

Lemma length_encode_ptr k : forall p, length (encode_ptr k p) = k.
Proof. induction k as [|k IH]; intros p; simpl; [reflexivity|now rewrite IH]. Qed.

Lemma decode_encode_ptr k : forall p,
  decode_ptr (encode_ptr k p) = p mod 2 ^ (8 * N.of_nat k).
Proof.
  induction k as [|k IH]; intros p.
  - simpl. now rewrite N.mod_1_r.
  - cbn [encode_ptr decode_ptr]. rewrite IH, to_N_byte_of_N.
    replace (8 * N.of_nat (S k)) with (8 + 8 * N.of_nat k) by lia.
    rewrite N.pow_add_r. change (2 ^ 8) with 256.
    rewrite N.Div0.mod_mul_r. reflexivity.
Qed.

Lemma decode_encode_fits cfg p :
  fits cfg p -> decode_ptr (encode_ptr (ptr_size cfg) p) = p.
Proof.
  intros H. rewrite decode_encode_ptr. now apply N.mod_small.
Qed.

Lemma take_written k p (buf : list byte) :
  take k (encode_ptr k p ++ drop k buf) = encode_ptr k p.
Proof.
  rewrite take_app_le by (rewrite length_encode_ptr; lia).
  apply take_ge. rewrite length_encode_ptr. lia.
Qed.

Lemma length_written k p (buf : list byte) :
  (k <= length buf)%nat ->
  length (encode_ptr k p ++ drop k buf) = length buf.
Proof.
  intros H. rewrite length_app, length_encode_ptr, length_drop. lia.
Qed.

(** *** [save] and [load] *)

Lemma save_refused cfg pdata datalen m w :
  pdata = None \/ (datalen < ptr_size cfg)%nat ->
  save cfg pdata datalen m w = Returns (O, pdata) m w.
Proof.
  intros [-> | H]; [reflexivity|]. unfold save.
  destruct pdata as [buf|]; [|reflexivity].
  apply Nat.ltb_lt in H. now rewrite H.
Qed.

Lemma load_refused cfg pdata datalen m w :
  pdata = None \/ (datalen < ptr_size cfg)%nat ->
  load cfg pdata datalen m w = Returns O m w.
Proof.
  intros [-> | H]; [reflexivity|]. unfold load.
  destruct pdata as [buf|]; [|reflexivity].
  apply Nat.ltb_lt in H. now rewrite H.
Qed.

Lemma save_writes cfg buf datalen m w :
  (ptr_size cfg <= datalen)%nat -> (ptr_size cfg <= length buf)%nat ->
  save cfg (Some buf) datalen m w =
    Returns (ptr_size cfg,
             Some (encode_ptr (ptr_size cfg) (p_current_state m)
                   ++ drop (ptr_size cfg) buf))
            fresh_machine w.
Proof.
  intros H1 H2. unfold save.
  apply Nat.ltb_ge in H1. apply Nat.ltb_ge in H2. now rewrite H1, H2.
Qed.

Lemma load_reads cfg buf datalen m w :
  (ptr_size cfg <= datalen)%nat -> (ptr_size cfg <= length buf)%nat ->
  load cfg (Some buf) datalen m w =
    Returns (ptr_size cfg)
            {| p_current_state := decode_ptr (take (ptr_size cfg) buf) |} w.
Proof.
  intros H1 H2. unfold load.
  apply Nat.ltb_ge in H1. apply Nat.ltb_ge in H2. now rewrite H1, H2.
Qed.

(** A call of [save] that reports bytes written had a buffer wide enough. *)
Lemma save_success_inv cfg pdata datalen m w n out m' w' :
  save cfg pdata datalen m w = Returns (n, out) m' w' -> n <> O ->
  exists buf,
    pdata = Some buf /\ (ptr_size cfg <= datalen)%nat
    /\ (ptr_size cfg <= length buf)%nat.
Proof.
  unfold save. destruct pdata as [buf|].
  - destruct (Nat.ltb datalen (ptr_size cfg)) eqn:E1.
    { unfold ret. intros H Hn. injection H as <- _ _ _. congruence. }
    destruct (Nat.ltb (length buf) (ptr_size cfg)) eqn:E2; [discriminate|].
    intros _ _. exists buf.
    apply Nat.ltb_ge in E1. apply Nat.ltb_ge in E2. auto.
  - unfold ret. intros H Hn. injection H as <- _ _ _. congruence.
Qed.

Lemma load_success_inv cfg pdata datalen m w n m' w' :
  load cfg pdata datalen m w = Returns n m' w' -> n <> O ->
  exists buf,
    pdata = Some buf /\ (ptr_size cfg <= datalen)%nat
    /\ (ptr_size cfg <= length buf)%nat.
Proof.
  unfold load. destruct pdata as [buf|].
  - destruct (Nat.ltb datalen (ptr_size cfg)) eqn:E1.
    { unfold ret. intros H Hn. injection H as <- _ _. congruence. }
    destruct (Nat.ltb (length buf) (ptr_size cfg)) eqn:E2; [discriminate|].
    intros _ _. exists buf.
    apply Nat.ltb_ge in E1. apply Nat.ltb_ge in E2. auto.
  - unfold ret. intros H Hn. injection H as <- _ _. congruence.
Qed.

(** *** Introspection and destruction without a current state *)

Lemma state_not_started cfg t m w :
  p_current_state m = nullptr -> state cfg t m w = Returns nullptr m w.
Proof.
  intros H. unfold state. rewrite bind_get_current, H. reflexivity.
Qed.

Lemma destroy_not_started cfg m w :
  p_current_state m = nullptr -> destroy cfg m w = Returns tt m w.
Proof.
  intros H. unfold destroy. rewrite bind_get_current, H. reflexivity.
Qed.

(** A call whose type check passes throws when the allocator yields null,
    before anything else has happened. *)
Lemma transition_null_handle cfg f t d m w c m1 w1 :
  registered cfg f t = true ->
  current_is m w c -> is_a cfg c f = true ->
  allocate_state cfg t m w = Returns nullptr m1 w1 ->
  transition cfg f t d m w = Throws (allocation_error cfg) m w1.
Proof.
  intros Hr [Hp Hc] Hisa Ea.
  apply registered_inv in Hr as (H1 & H2 & H3).
  pose proof (only_allocates_allocate_state cfg t _ _ _ _ _ Ea) as (-> & _).
  unfold transition. rewrite H1, H2, H3. simpl.
  rewrite bind_get_current.
  rewrite (bind_returns _ _ _ _ _ _ _ (dynamic_cast_live cfg f _ c m w Hp Hc)).
  rewrite Hisa, (eqb_null_false _ Hp), bind_get_current,
    (eqb_null_false _ Hp).
  now rewrite (bind_returns _ _ _ _ _ _ _ Ea).
Qed.

Lemma state_live cfg t m w c :
  current_is m w c ->
  state cfg t m w =
    Returns (if is_a cfg c t then p_current_state m else nullptr) m w.
Proof.
  intros [Hp Hc]. unfold state. rewrite bind_get_current.
  now apply dynamic_cast_live.
Qed.

Lemma error_texts_differ cfg : null_state_error <> allocation_error cfg.
Proof.
  unfold null_state_error, allocation_error. intros H.
  injection H as H. cbn [String.append] in H. discriminate H.
Qed.

Lemma machine_eta m : {| p_current_state := p_current_state m |} = m.
Proof. now destruct m. Qed.

(** ** The properties of the specification *)

(** C1, as stated, fails on a machine whose allocator has no object of the
    target class.  With the caller's array [gap_pool] the machine is in
    [state_a], the edge a -> b is registered, and [transition<a, b>] throws
    the allocation error instead of returning true; no hook has run.  With
    [swapped_pool] the allocator yields the [state_a] object for [state_b]:
    the call returns true, but the entry hook that runs is the one of
    [state_a] and [state<state_b>()] is null afterwards. *)
Lemma transition_from_state_can_throw :
  registered gap_cfg state_a state_b = true
  /\ current_is machine_16 world_abc state_a
  /\ transition gap_cfg state_a state_b 7 machine_16 world_abc
       = Throws (allocation_error gap_cfg) machine_16 world_abc
  /\ ~ (exists pn, fired gap_cfg state_a state_b 7 machine_16 world_abc pn)
  /\ exists w',
       transition swapped_cfg state_a state_b 7 machine_16 world_abc
         = Returns true machine_16 w'
       /\ trace w' = [on_exit state_a 16 7;
                      transition_action state_a state_b 7;
                      on_enter state_a 16 7]
       /\ state swapped_cfg state_b machine_16 w'
            = Returns nullptr machine_16 w'.
Proof.
  assert (E : transition gap_cfg state_a state_b 7 machine_16 world_abc
              = Throws (allocation_error gap_cfg) machine_16 world_abc)
    by (vm_compute; reflexivity).
  split; [reflexivity|]. split; [split; [discriminate|reflexivity]|].
  split; [exact E|]. split.
  - intros (pn & w' & H & _). rewrite E in H. discriminate H.
  - eexists. split; [vm_compute; reflexivity|].
    split; vm_compute; reflexivity.
Qed.

(** C1 (amended): for every registered edge (From, To), on a machine whose
    current state is an object of class From, whenever the active allocator
    yields a non-null handle to a To object, [transition<From, To>(data)]
    calls [on_exit] on the From state, then the registered action, then
    [on_enter] on the To state, in that order and each with [data], returns
    true, and afterwards [state<To>()] reports the new handle.  The lazy
    allocator always yields such a handle, so there the call always fires. *)
Theorem transition_runs_exit_action_enter cfg from_state to_state d m w :
  registered cfg from_state to_state = true ->
  current_is m w from_state ->
  (forall pn m1 w1,
      allocate_state cfg to_state m w = Returns pn m1 w1 ->
      pn <> nullptr -> heap w1 !! pn = Some to_state ->
      fired cfg from_state to_state d m w pn)
  /\ (alloc cfg = LAZY ->
      fired cfg from_state to_state d m w (operator_new cfg (heap w))).
Proof.
  intros Hr Hcur.
  assert (Hgen : forall pn m1 w1,
      allocate_state cfg to_state m w = Returns pn m1 w1 ->
      pn <> nullptr -> heap w1 !! pn = Some to_state ->
      fired cfg from_state to_state d m w pn).
  { intros pn m1 w1 Ea Hpn Hk.
    destruct (transition_fires cfg from_state to_state d m w from_state
                pn m1 w1 to_state Hr Hcur (is_a_refl cfg _) Ea Hpn Hk)
      as (w' & Et & Htr & Hlive & _).
    exists w'. repeat split; [exact Et|exact Htr|exact Hpn|].
    rewrite (state_live cfg to_state _ w' to_state) by (split; assumption).
    now rewrite is_a_refl. }
  split; [exact Hgen|].
  intros Hl.
  destruct (allocate_state_lazy cfg to_state m w Hl) as (Ea & Hpn & _).
  eapply Hgen; [exact Ea|exact Hpn|]. simpl. apply lookup_insert_eq.
Qed.

Lemma transition_runs_exit_action_enter_witness :
  fired ext_cfg state_a state_b 7 machine_16 world_abc 32
  /\ fired lazy_cfg state_a state_b 7 machine_16 world_a 17.
Proof.
  split.
  - refine (proj1 (transition_runs_exit_action_enter ext_cfg state_a state_b
                     7 machine_16 world_abc _ _) 32 machine_16 world_abc
                  _ _ _).
    + reflexivity.
    + split; [discriminate|reflexivity].
    + reflexivity.
    + discriminate.
    + reflexivity.
  - refine (proj2 (transition_runs_exit_action_enter lazy_cfg state_a state_b
                     7 machine_16 world_a _ _) _).
    + reflexivity.
    + split; [discriminate|reflexivity].
    + reflexivity.
Defined.

(** C2, as stated, fails when a state class derives from another: with
    [class state_b : public state_a] the machine's current state is a
    [state_b], which differs from [state_a], yet [transition<a, c>] passes
    the [dynamic_cast] check, runs the hooks and returns true. *)
Lemma transition_from_derived_state_fires :
  registered derived_cfg state_a state_c = true
  /\ current_is machine_16 world_b state_b
  /\ state_b <> state_a
  /\ exists w',
       transition derived_cfg state_a state_c 7 machine_16 world_b
         = Returns true {| p_current_state := 17 |} w'
       /\ trace w' = [on_exit state_b 16 7;
                      transition_action state_a state_c 7;
                      on_enter state_c 17 7].
Proof.
  split; [reflexivity|]. split; [split; [discriminate|reflexivity]|].
  split; [discriminate|].
  eexists. split; vm_compute; reflexivity.
Qed.

(** C2 (amended): for every registered edge (From, To), if
    [transition<From, To>(data)] is called when the current state object is
    of a class that is neither From nor derived from From, the call returns
    false and leaves the machine and the store as they were: the current
    state is unchanged and no hook or action has run. *)
Theorem transition_rejects_other_state cfg from_state to_state d m w c :
  registered cfg from_state to_state = true ->
  current_is m w c ->
  is_a cfg c from_state = false ->
  transition cfg from_state to_state d m w = Returns false m w.
Proof.
  intros Hr [Hp Hc] Hisa. apply transition_mismatch; [exact Hr|].
  rewrite (dynamic_cast_live cfg from_state _ c m w Hp Hc).
  now rewrite Hisa.
Qed.

Lemma transition_rejects_other_state_witness :
  transition lazy_cfg state_b state_a 7 machine_16 world_a
    = Returns false machine_16 world_a.
Proof.
  apply (transition_rejects_other_state lazy_cfg state_b state_a 7
           machine_16 world_a state_a).
  - reflexivity.
  - split; [discriminate|reflexivity].
  - reflexivity.
Defined.

(** C3, as stated, fails: no invocation of [transition] runs an exit hook
    and then fails to allocate.  The target handle is obtained and tested
    before the exit hook is called, so the failure of the allocation ends
    the call before any call into user code. *)
Lemma exit_without_entry_unreachable :
  ~ (exists cfg from_state to_state d m w,
        exit_without_entry cfg from_state to_state d m w).
Proof.
  intros (cfg & f & t & d & m & w & m' & w' & evs & c & p & Et & Htr & Hin).
  apply transition_throws_inv in Et as (_ & _ & _ & Ea).
  pose proof (only_allocates_allocate_state cfg t _ _ _ _ _ Ea)
    as (_ & Ht & _).
  rewrite Ht in Htr.
  assert (evs = []) as ->.
  { apply (f_equal (@length event)) in Htr. rewrite length_app in Htr.
    destruct evs; [reflexivity|simpl in Htr; lia]. }
  destruct Hin.
Qed.

(** C3 (amended): whenever the allocation of the To handle fails in an
    invocation of [transition<From, To>] (the allocator returns null after
    the current state has matched From), the call throws the allocation
    error before the exit hook of the From state runs: no hook and no action
    has been called, no object has been released, and the machine still
    holds its current state, which is still live.  An allocation failure
    therefore never leaves the machine exited without a matching entry. *)
Theorem failed_allocation_precedes_exit cfg from_state to_state d m w c m1 w1 :
  registered cfg from_state to_state = true ->
  current_is m w c ->
  is_a cfg c from_state = true ->
  allocate_state cfg to_state m w = Returns nullptr m1 w1 ->
  transition cfg from_state to_state d m w
    = Throws (allocation_error cfg) m w1
  /\ trace w1 = trace w
  /\ current_is m w1 c
  /\ (forall q k, heap w !! q = Some k -> heap w1 !! q = Some k).
Proof.
  intros Hr Hcur Hisa Ea.
  pose proof (only_allocates_allocate_state cfg to_state _ _ _ _ _ Ea)
    as (_ & Ht & Hk).
  split.
  { exact (transition_null_handle cfg from_state to_state d m w c m1 w1
             Hr Hcur Hisa Ea). }
  split; [exact Ht|]. split; [|exact Hk].
  destruct Hcur as [Hp Hc]. split; [exact Hp|now apply Hk].
Qed.

Lemma failed_allocation_precedes_exit_witness :
  allocate_state gap_cfg state_b machine_16 world_abc
    = Returns nullptr machine_16 world_abc
  /\ transition gap_cfg state_a state_b 7 machine_16 world_abc
       = Throws (allocation_error gap_cfg) machine_16 world_abc
  /\ trace world_abc = []
  /\ current_is machine_16 world_abc state_a.
Proof.
  assert (Ea : allocate_state gap_cfg state_b machine_16 world_abc
               = Returns nullptr machine_16 world_abc) by reflexivity.
  destruct (failed_allocation_precedes_exit gap_cfg state_a state_b 7
              machine_16 world_abc state_a machine_16 world_abc)
    as (Et & Ht & Hc & _).
  - reflexivity.
  - split; [discriminate|reflexivity].
  - reflexivity.
  - exact Ea.
  - split; [exact Ea|]. split; [exact Et|]. split; [exact Ht|exact Hc].
Defined.

(** C4: whenever the active allocator returns a null handle during
    [start<Initial>], or during [transition<From, To>] after the current
    state has matched From, the operation throws instead of returning; and
    when the current state does not match From ([state<From>()] is null)
    [transition] signals it by returning false, without throwing and without
    touching the machine or the store. *)
Theorem null_handle_is_raised cfg initial_state from_state to_state d :
  is_valid_state cfg initial_state = true ->
  registered cfg from_state to_state = true ->
  (forall m w m1 w1,
      allocate_state cfg initial_state m w = Returns nullptr m1 w1 ->
      start cfg initial_state d m w = Throws null_state_error fresh_machine w1)
  /\ (forall m w c m1 w1,
      current_is m w c -> is_a cfg c from_state = true ->
      allocate_state cfg to_state m w = Returns nullptr m1 w1 ->
      transition cfg from_state to_state d m w
        = Throws (allocation_error cfg) m w1)
  /\ (forall m w,
      state cfg from_state m w = Returns nullptr m w ->
      transition cfg from_state to_state d m w = Returns false m w).
Proof.
  intros Hv Hr. split; [|split].
  - intros m w m1 w1 Ea. now apply (start_null_handle cfg _ d m w m1 w1).
  - intros m w c m1 w1 Hcur Hisa Ea.
    now apply (transition_null_handle cfg from_state to_state d m w c m1 w1).
  - intros m w Hs. apply transition_mismatch; [exact Hr|].
    unfold state in Hs. now rewrite bind_get_current in Hs.
Qed.

Lemma null_handle_is_raised_witness :
  start gap_cfg state_b 7 fresh_machine world_abc
    = Throws null_state_error fresh_machine world_abc
  /\ transition gap_cfg state_a state_b 7 machine_16 world_abc
       = Throws (allocation_error gap_cfg) machine_16 world_abc
  /\ transition gap_cfg state_b state_a 7 machine_16 world_abc
       = Returns false machine_16 world_abc.
Proof.
  split; [|split].
  - refine (proj1 (null_handle_is_raised gap_cfg state_b state_a state_b 7
                     _ _) fresh_machine world_abc fresh_machine world_abc _);
      reflexivity.
  - refine (proj1 (proj2 (null_handle_is_raised gap_cfg state_b state_a
                            state_b 7 _ _))
                  machine_16 world_abc state_a machine_16 world_abc _ _ _);
      try reflexivity.
    split; [discriminate|reflexivity].
  - refine (proj2 (proj2 (null_handle_is_raised gap_cfg state_b state_b
                            state_a 7 _ _)) machine_16 world_abc _);
      reflexivity.
Defined.

(** C5: for every started machine and every buffer at least one handle wide,
    [save] into the buffer followed by [load] from the same buffer on a fresh
    machine of the same configuration gives a machine in the same concrete
    state class as before the save, whose introspection and whose
    [transition] calls behave exactly as those of the machine before the
    save. *)
Theorem save_load_round_trip cfg buf datalen m w c :
  current_is m w c ->
  fits cfg (p_current_state m) ->
  (ptr_size cfg <= datalen)%nat ->
  (ptr_size cfg <= length buf)%nat ->
  exists buf' m2,
    save cfg (Some buf) datalen m w
      = Returns (ptr_size cfg, Some buf') fresh_machine w
    /\ load cfg (Some buf') datalen fresh_machine w
         = Returns (ptr_size cfg) m2 w
    /\ current_is m2 w c
    /\ (forall t, state cfg t m2 w = state cfg t m w)
    /\ (forall from_state to_state d,
          transition cfg from_state to_state d m2 w
            = transition cfg from_state to_state d m w).
Proof.
  intros Hcur Hfit Hlen Hbuf.
  exists (encode_ptr (ptr_size cfg) (p_current_state m)
          ++ drop (ptr_size cfg) buf), m.
  split; [now apply save_writes|]. split.
  - rewrite load_reads; [|exact Hlen|now rewrite length_written].
    rewrite take_written, (decode_encode_fits cfg _ Hfit), machine_eta.
    reflexivity.
  - auto.
Qed.

Lemma save_load_round_trip_witness :
  exists buf' m2,
    save lazy_cfg (Some buffer8) 8 machine_16 world_a
      = Returns (8%nat, Some buf') fresh_machine world_a
    /\ load lazy_cfg (Some buf') 8 fresh_machine world_a
         = Returns 8%nat m2 world_a
    /\ current_is m2 world_a state_a.
Proof.
  destruct (save_load_round_trip lazy_cfg buffer8 8 machine_16 world_a state_a)
    as (buf' & m2 & Hs & Hl & Hc & _).
  - split; [discriminate|reflexivity].
  - reflexivity.
  - simpl. lia.
  - simpl. lia.
  - exists buf', m2. auto.
Defined.

(** C6, as stated, fails on a machine whose allocator has no object of the
    class.  With the caller's array [gap_pool], [start<state_b>] throws
    before any hook runs, and a [stop] after it finds no current state, so
    neither [on_enter] nor [on_exit] is ever called.  With [swapped_pool]
    the allocator yields the [state_a] object, and the two hooks that run are
    those of [state_a]. *)
Lemma start_can_throw_without_entry :
  is_valid_state gap_cfg state_b = true
  /\ start gap_cfg state_b 7 fresh_machine world_abc
       = Throws null_state_error fresh_machine world_abc
  /\ stop gap_cfg 7 fresh_machine world_abc
       = Returns tt fresh_machine world_abc
  /\ trace world_abc = []
  /\ ~ (exists p,
         started_then_stopped gap_cfg state_b 7 fresh_machine world_abc p)
  /\ exists w' w'',
       start swapped_cfg state_b 7 fresh_machine world_abc
         = Returns tt machine_16 w'
       /\ stop swapped_cfg 7 machine_16 w' = Returns tt fresh_machine w''
       /\ trace w'' = [on_enter state_a 16 7; on_exit state_a 16 7].
Proof.
  assert (E : start gap_cfg state_b 7 fresh_machine world_abc
              = Throws null_state_error fresh_machine world_abc)
    by (vm_compute; reflexivity).
  split; [reflexivity|]. split; [exact E|]. split; [reflexivity|].
  split; [reflexivity|]. split.
  - intros (p & w' & w'' & H & _). rewrite E in H. discriminate H.
  - eexists. eexists. split; [vm_compute; reflexivity|].
    split; vm_compute; reflexivity.
Qed.

(** C6 (amended): for every declared state type S, whenever the active
    allocator yields a non-null handle to an S object, [start<S>(data)]
    followed at once by [stop(data)] makes exactly one call to [on_enter] of
    S and then exactly one call to [on_exit] of S, both on that object and
    both with [data], and no other call into user code.  The lazy allocator
    always yields such a handle.  (The store is one in which the internal
    pool, if it has been built, still holds its objects.) *)
Theorem start_then_stop_calls_enter_exit cfg s d m w :
  is_valid_state cfg s = true ->
  pool_intact w = true ->
  (forall p m1 w1,
      allocate_state cfg s m w = Returns p m1 w1 ->
      p <> nullptr -> heap w1 !! p = Some s ->
      started_then_stopped cfg s d m w p)
  /\ (alloc cfg = LAZY ->
      started_then_stopped cfg s d m w (operator_new cfg (heap w))).
Proof.
  intros Hv Hi.
  assert (Hgen : forall p m1 w1,
      allocate_state cfg s m w = Returns p m1 w1 ->
      p <> nullptr -> heap w1 !! p = Some s ->
      started_then_stopped cfg s d m w p).
  { intros p m1 w1 Ea Hp Hk.
    pose proof (start_returns cfg s d m w p m1 w1 s Hv Ea Hp Hk) as Es.
    set (w' := {| heap := heap w1; pool_ := pool_ w1;
                  trace := trace w ++ [on_enter s p d] |}) in Es.
    destruct (stop_returns cfg d {| p_current_state := p |} w' s)
      as (w'' & Est & Htr).
    - split; assumption.
    - intros Hal.
      exact (allocate_state_pool_intact cfg s m w p m1 w1 (fun _ => Hi) Ea Hal).
    - exists w', w''. split; [exact Es|]. split; [exact Est|].
      rewrite Htr. simpl. now rewrite <- app_assoc. }
  split; [exact Hgen|].
  intros Hl.
  destruct (allocate_state_lazy cfg s m w Hl) as (Ea & Hpn & _).
  eapply Hgen; [exact Ea|exact Hpn|]. simpl. apply lookup_insert_eq.
Qed.

Lemma start_then_stop_calls_enter_exit_witness :
  started_then_stopped lazy_cfg state_b 7 fresh_machine world_0 1
  /\ started_then_stopped ext_cfg state_b 7 fresh_machine world_abc 32
  /\ started_then_stopped int_cfg state_b 7 fresh_machine world_0 2.
Proof.
  split; [|split].
  - refine (proj2 (start_then_stop_calls_enter_exit lazy_cfg state_b 7
                     fresh_machine world_0 _ _) _); reflexivity.
  - refine (proj1 (start_then_stop_calls_enter_exit ext_cfg state_b 7
                     fresh_machine world_abc _ _)
                  32 fresh_machine world_abc _ _ _);
      try reflexivity. discriminate.
  - refine (proj1 (start_then_stop_calls_enter_exit int_cfg state_b 7
                     fresh_machine world_0 _ _)
                  2 fresh_machine
                  {| heap := <[3 := state_c]>
                               (<[2 := state_b]> {[ 1 := state_a ]});
                     pool_ := Some [1; 2; 3]; trace := [] |} _ _ _);
      try reflexivity. discriminate.
Defined.

(** C7: [stop] on a machine that holds no current state (never started, or
    already stopped) returns at once with the machine and the store as they
    were: no hook runs and no object is released.  A [stop] that returns
    leaves the machine without a current state, so a second [stop] right
    after it is such a call: it neither calls [on_exit] again nor releases
    anything again. *)
Theorem stop_is_idempotent cfg d :
  (forall m w,
      p_current_state m = nullptr -> stop cfg d m w = Returns tt m w)
  /\ (forall m w m' w',
      stop cfg d m w = Returns tt m' w' ->
      p_current_state m' = nullptr
      /\ stop cfg d m' w' = Returns tt m' w').
Proof.
  split.
  - intros m w H. now apply stop_not_started.
  - intros m w m' w' H. apply stop_clears in H.
    split; [exact H|now apply stop_not_started].
Qed.

Lemma stop_is_idempotent_witness :
  stop lazy_cfg 7 fresh_machine world_0 = Returns tt fresh_machine world_0
  /\ exists w',
       stop lazy_cfg 7 machine_16 world_a = Returns tt fresh_machine w'
       /\ trace w' = [on_exit state_a 16 7]
       /\ heap w' = ∅
       /\ stop lazy_cfg 7 fresh_machine w' = Returns tt fresh_machine w'.
Proof.
  destruct (stop_is_idempotent lazy_cfg 7) as [Hnull Htwice].
  split; [apply Hnull; reflexivity|].
  eexists. split; [vm_compute; reflexivity|].
  split; [reflexivity|]. split; [reflexivity|].
  apply (Htwice machine_16 world_a). vm_compute. reflexivity.
Defined.

(** C8: for a null buffer pointer, and for every buffer whose length is
    smaller than one handle's width, [save] returns 0 and [load] returns 0;
    both return normally and leave the machine, its current state and the
    buffer as they were. *)
Theorem undersized_buffer_is_refused cfg pdata datalen m w :
  pdata = None \/ (datalen < ptr_size cfg)%nat ->
  save cfg pdata datalen m w = Returns (O, pdata) m w
  /\ load cfg pdata datalen m w = Returns O m w.
Proof.
  intros H. split; [now apply save_refused|now apply load_refused].
Qed.

Lemma undersized_buffer_is_refused_witness :
  (save lazy_cfg (Some buffer3) 3 machine_16 world_a
     = Returns (O, Some buffer3) machine_16 world_a
   /\ load lazy_cfg (Some buffer3) 3 machine_16 world_a
        = Returns O machine_16 world_a)
  /\ (save lazy_cfg None 8 machine_16 world_a
        = Returns (O, None) machine_16 world_a
      /\ load lazy_cfg None 8 machine_16 world_a
           = Returns O machine_16 world_a).
Proof.
  split.
  - apply (undersized_buffer_is_refused lazy_cfg (Some buffer3) 3).
    right. simpl. lia.
  - apply (undersized_buffer_is_refused lazy_cfg None 8).
    left. reflexivity.
Defined.

(** C9: after every [save] that returns a nonzero byte count the machine's
    own handle is null and the store is untouched, so [state<T>()] is null
    for every T and destroying the machine returns without releasing
    anything; and every [load] that returns a nonzero byte count has
    installed the handle held in the first bytes of the buffer as the current
    state, without any call into user code and without touching the store. *)
Theorem save_detaches_and_load_attaches cfg pdata datalen m w :
  (forall n out m' w',
      save cfg pdata datalen m w = Returns (n, out) m' w' -> n <> O ->
      p_current_state m' = nullptr
      /\ w' = w
      /\ (forall t, state cfg t m' w' = Returns nullptr m' w')
      /\ destroy cfg m' w' = Returns tt m' w')
  /\ (forall n m' w',
      load cfg pdata datalen m w = Returns n m' w' -> n <> O ->
      exists buf,
        pdata = Some buf
        /\ p_current_state m' = decode_ptr (take (ptr_size cfg) buf)
        /\ w' = w).
Proof.
  split.
  - intros n out m' w' Hs Hn.
    destruct (save_success_inv cfg pdata datalen m w n out m' w' Hs Hn)
      as (buf & -> & H1 & H2).
    rewrite (save_writes cfg buf datalen m w H1 H2) in Hs.
    injection Hs as _ _ <- <-.
    split; [reflexivity|]. split; [reflexivity|]. split.
    + intros t. now apply state_not_started.
    + now apply destroy_not_started.
  - intros n m' w' Hl Hn.
    destruct (load_success_inv cfg pdata datalen m w n m' w' Hl Hn)
      as (buf & -> & H1 & H2).
    rewrite (load_reads cfg buf datalen m w H1 H2) in Hl.
    injection Hl as _ <- <-. exists buf. auto.
Qed.

Lemma save_detaches_and_load_attaches_witness :
  (exists out,
     save lazy_cfg (Some buffer8) 8 machine_16 world_a
       = Returns (8%nat, out) fresh_machine world_a
     /\ destroy lazy_cfg fresh_machine world_a
          = Returns tt fresh_machine world_a)
  /\ load lazy_cfg (Some (encode_ptr 8 16)) 8 fresh_machine world_a
       = Returns 8%nat machine_16 world_a.
Proof.
  split.
  - eexists. split; [vm_compute; reflexivity|].
    refine (proj2 (proj2 (proj2 (proj1
      (save_detaches_and_load_attaches lazy_cfg (Some buffer8) 8
         machine_16 world_a) 8%nat _ fresh_machine world_a _ _))));
      [vm_compute; reflexivity|discriminate].
  - destruct (proj2 (save_detaches_and_load_attaches lazy_cfg
                       (Some (encode_ptr 8 16)) 8 fresh_machine world_a)
                8%nat machine_16 world_a) as (buf & _ & _ & _);
      [vm_compute; reflexivity|discriminate|].
    vm_compute. reflexivity.
Defined.

(** C10: for every registered edge (From, To), [transition<From, To>] on a
    machine that holds no current state handle returns false and leaves the
    machine and the store as they were, without throwing; and no call of
    [transition], on any machine, ever throws the null-state error: its
    branch sits behind the type check, which has already returned false when
    the handle is null. *)
Theorem transition_without_state_returns_false cfg from_state to_state d :
  registered cfg from_state to_state = true ->
  (forall m w,
      p_current_state m = nullptr ->
      transition cfg from_state to_state d m w = Returns false m w)
  /\ (forall m w m' w',
      transition cfg from_state to_state d m w
        <> Throws null_state_error m' w').
Proof.
  intros Hr. split.
  - intros m w H. apply transition_mismatch; [exact Hr|].
    rewrite H. apply dynamic_cast_null.
  - intros m w m' w' Et.
    apply transition_throws_inv in Et as (E & _).
    now apply (error_texts_differ cfg).
Qed.

Lemma transition_without_state_returns_false_witness :
  registered lazy_cfg state_a state_b = true
  /\ transition lazy_cfg state_a state_b 7 fresh_machine world_0
       = Returns false fresh_machine world_0.
Proof.
  split; [reflexivity|].
  apply (proj1 (transition_without_state_returns_false lazy_cfg state_a
                  state_b 7 eq_refl)).
  reflexivity.
Defined.

(** ** Further properties of the code *)

(** *** Type identifiers *)

Lemma gen_type_ids_lookup bits k : forall g i,
  g < 2 ^ bits -> (i < k)%nat ->
  (gen_type_ids bits k g).1 !! i = Some ((g + N.of_nat i) mod 2 ^ bits).
Proof.
  induction k as [|k IH]; intros g i Hg Hi; [lia|].
  simpl. destruct (gen_type_ids bits k ((g + 1) mod 2 ^ bits)) as [ids g2] eqn:E.
  destruct i as [|i]; simpl.
  - rewrite N.add_0_r. now rewrite N.mod_small.
  - pose proof (IH ((g + 1) mod 2 ^ bits) i) as H. rewrite E in H. simpl in H.
    rewrite H; [|apply N.mod_upper_bound; lia|lia].
    f_equal. rewrite N.Div0.add_mod_idemp_l. f_equal. lia.
Qed.

Lemma gen_type_ids_length bits k : forall g,
  length (gen_type_ids bits k g).1 = k.
Proof.
  induction k as [|k IH]; intros g; [reflexivity|].
  simpl. specialize (IH ((g + 1) mod 2 ^ bits)).
  destruct (gen_type_ids bits k ((g + 1) mod 2 ^ bits)) as [ids g2].
  simpl in *. now rewrite IH.
Qed.

Lemma gen_type_ids_from_zero bits k :
  N.of_nat k <= 2 ^ bits ->
  (gen_type_ids bits k 0).1 = map N.of_nat (seq 0 k).
Proof.
  intros Hk.
  assert (Hpos : 0 < 2 ^ bits) by (apply N.neq_0_lt_0, N.pow_nonzero; lia).
  apply list_eq. intros i.
  destruct (decide (i < k)%nat) as [Hi|Hi].
  - rewrite gen_type_ids_lookup by (exact Hpos || exact Hi).
    rewrite N.mod_small by lia.
    rewrite list_lookup_fmap, lookup_seq_lt by exact Hi. reflexivity.
  - rewrite !lookup_ge_None_2; [reflexivity| |].
    + rewrite length_map, length_seq. lia.
    + rewrite gen_type_ids_length. lia.
Qed.

(** X1: [k] calls of [gen_type_id] on a counter that starts at zero return
    0, 1, ..., k-1 in that order, as long as [k] does not exceed the range of
    [std::size_t]: the identifiers are pairwise distinct and each is a valid
    index into an array of [k] slots. *)
Theorem gen_type_id_counts_from_zero bits k :
  N.of_nat k <= 2 ^ bits ->
  (gen_type_ids bits k 0).1 = map N.of_nat (seq 0 k)
  /\ NoDup (gen_type_ids bits k 0).1
  /\ (forall i, In i (gen_type_ids bits k 0).1 -> i < N.of_nat k).
Proof.
  intros Hk. rewrite (gen_type_ids_from_zero bits k Hk).
  split; [reflexivity|]. split.
  - apply NoDup_fmap_2; [intros x y; lia|apply NoDup_seq].
  - intros i Hi. apply in_map_iff in Hi as (j & <- & Hj).
    apply in_seq in Hj. lia.
Qed.

Lemma gen_type_id_counts_from_zero_witness :
  (gen_type_ids 64 3 0).1 = [0; 1; 2].
Proof.
  refine (proj1 (gen_type_id_counts_from_zero 64 3 _)). vm_compute.
  discriminate.
Defined.

Lemma gen_type_ids_counter bits k : forall g,
  g < 2 ^ bits ->
  (gen_type_ids bits k g).2 = (g + N.of_nat k) mod 2 ^ bits.
Proof.
  induction k as [|k IH]; intros g Hg.
  - simpl. rewrite N.add_0_r. now rewrite N.mod_small.
  - simpl. pose proof (IH ((g + 1) mod 2 ^ bits)) as H.
    destruct (gen_type_ids bits k ((g + 1) mod 2 ^ bits)) as [ids g2].
    simpl in *. rewrite H by (apply N.mod_upper_bound; lia).
    rewrite N.Div0.add_mod_idemp_l. f_equal. lia.
Qed.

(** X2: in any run of [k] calls of [gen_type_id], call number [i] returns
    the counter's start plus [i], modulo the range of [std::size_t], and the
    run leaves the counter at its start plus [k], modulo that range; so in a
    run longer than [2 ^ bits] calls the identifiers repeat: call number
    [i + 2 ^ bits] returns what call number [i] returned. *)
Theorem gen_type_id_wraps bits k g i :
  g < 2 ^ bits -> (i < k)%nat ->
  (gen_type_ids bits k g).1 !! i = Some ((g + N.of_nat i) mod 2 ^ bits)
  /\ (gen_type_ids bits k g).2 = (g + N.of_nat k) mod 2 ^ bits
  /\ ((i + N.to_nat (2 ^ bits) < k)%nat ->
      (gen_type_ids bits k g).1 !! (i + N.to_nat (2 ^ bits))%nat
      = (gen_type_ids bits k g).1 !! i).
Proof.
  intros Hg Hi.
  split; [now apply gen_type_ids_lookup|].
  split; [now apply gen_type_ids_counter|].
  intros Hwrap.
  rewrite !gen_type_ids_lookup by (exact Hg || lia).
  f_equal.
  rewrite Nat2N.inj_add, N2Nat.id, N.add_assoc.
  rewrite <- (N.mul_1_l (2 ^ bits)) at 1.
  apply N.Div0.mod_add.
Qed.

Lemma gen_type_id_wraps_witness :
  ((gen_type_ids 64 3 5).1 !! 2%nat = Some 7
   /\ (gen_type_ids 64 3 5).2 = 8)
  /\ ((gen_type_ids 2 6 3).1 !! 1%nat = Some 0
      /\ (gen_type_ids 2 6 3).1 !! 5%nat = (gen_type_ids 2 6 3).1 !! 1%nat).
Proof.
  split.
  - destruct (gen_type_id_wraps 64 3 5 2) as (H1 & H2 & _);
      [vm_compute; reflexivity|lia|].
    split; [exact H1|exact H2].
  - destruct (gen_type_id_wraps 2 6 3 1) as (H1 & _ & H3);
      [vm_compute; reflexivity|lia|].
    split; [exact H1|]. apply H3. vm_compute. lia.
Defined.

(** *** The C++14 shims *)

Lemma disjunction_existsb bs : disjunction bs = existsb id bs.
Proof.
  induction bs as [|b1 bn IH]; [reflexivity|].
  cbn [disjunction existsb id]. destruct bn as [|b2 bn].
  - simpl. now rewrite orb_false_r.
  - rewrite IH. now destruct b1.
Qed.

Lemma conjunction_forallb bs : conjunction bs = forallb id bs.
Proof.
  induction bs as [|b1 bn IH]; [reflexivity|].
  cbn [conjunction forallb id]. destruct bn as [|b2 bn].
  - simpl. now rewrite andb_true_r.
  - rewrite IH. now destruct b1.
Qed.

(** X3: the hand-written [disjunction] and [conjunction] compute the logical
    or and the logical and of their arguments' values, as [std::disjunction]
    and [std::conjunction] do; so [is_valid_state<T>()] is true exactly when
    [T] occurs among [states...], and [are_valid_states] exactly when every
    listed class derives from the base. *)
Theorem shims_agree_with_std cfg t is_base_of derived :
  (forall bs, disjunction bs = true <-> In true bs)
  /\ (forall bs, conjunction bs = true <-> (forall b, In b bs -> b = true))
  /\ is_valid_state_shim cfg t = is_valid_state cfg t
  /\ (is_valid_state_shim cfg t = true <-> In t (states cfg))
  /\ (are_valid_states is_base_of derived = true
      <-> forall c, In c derived -> is_base_of c = true).
Proof.
  assert (Hd : forall bs, disjunction bs = true <-> In true bs).
  { intros bs. rewrite disjunction_existsb, existsb_exists. unfold id.
    split; [intros (x & Hx & ->); exact Hx|intros H; exists true; auto]. }
  assert (Hc : forall bs,
             conjunction bs = true <-> (forall b, In b bs -> b = true)).
  { intros bs. rewrite conjunction_forallb, forallb_forall. reflexivity. }
  split; [exact Hd|]. split; [exact Hc|]. split; [|split].
  - unfold is_valid_state_shim, is_valid_state.
    rewrite disjunction_existsb. induction (states cfg) as [|s ss IH];
      [reflexivity|]. simpl. now rewrite IH.
  - unfold is_valid_state_shim. rewrite Hd, in_map_iff. split.
    + intros (s & Hs & Hin). apply Nat.eqb_eq in Hs. now subst.
    + intros Hin. exists t. split; [apply Nat.eqb_refl|exact Hin].
  - unfold are_valid_states. rewrite Hc. split.
    + intros H c Hin. apply H, in_map_iff. eauto.
    + intros H b Hb. apply in_map_iff in Hb as (c & <- & Hin). auto.
Qed.

(** *** The internal pool: construction and teardown *)

Lemma released_delete p ps (h : gmap N cls) :
  released ps (delete p h) = delete p (released ps h).
Proof.
  induction ps as [|q ps IH]; [reflexivity|].
  unfold released in *. simpl. rewrite IH. apply delete_delete.
Qed.

Lemma released_lookup_in ps : forall (h : gmap N cls) q,
  In q ps -> released ps h !! q = None.
Proof.
  induction ps as [|p ps IH]; intros h q Hin; [destruct Hin|].
  unfold released in *. simpl.
  destruct (decide (p = q)) as [->|Hne]; [apply lookup_delete_eq|].
  rewrite lookup_delete_ne by exact Hne.
  destruct Hin as [E|Hin]; [congruence|]. now apply IH.
Qed.

Lemma released_lookup_out ps : forall (h : gmap N cls) q,
  ~ In q ps -> released ps h !! q = h !! q.
Proof.
  induction ps as [|p ps IH]; intros h q Hin; [reflexivity|].
  unfold released in *. simpl.
  rewrite lookup_delete_ne by (intros E; apply Hin; left; exact E).
  apply IH. intros H. apply Hin. now right.
Qed.

Lemma delete_states_released (ps : list N) : forall m w,
  distinct_live (heap w) ps = true ->
  delete_states ps m w =
    Returns tt m {| heap := released ps (heap w); pool_ := pool_ w;
                    trace := trace w |}.
Proof.
  induction ps as [|p ps IH]; intros m w Hd; simpl in *.
  - unfold ret, released. simpl. now destruct w.
  - destruct (heap w !! p) as [c|] eqn:Hp; [|discriminate].
    apply andb_true_iff in Hd as [Hp0 Hd]. apply negb_true_iff in Hp0.
    set (w1 := {| heap := delete p (heap w); pool_ := pool_ w;
                  trace := trace w |}).
    assert (Hdel : delete_ p m w = Returns tt m w1).
    { unfold delete_. now rewrite Hp0, Hp. }
    rewrite (bind_returns _ _ _ _ _ _ _ Hdel), (IH m w1 Hd). simpl.
    rewrite released_delete. reflexivity.
Qed.

Lemma distinct_live_nonnull ps : forall (h : gmap N cls) p,
  distinct_live h ps = true -> In p ps -> p <> nullptr /\ is_Some (h !! p).
Proof.
  induction ps as [|q ps IH]; intros h p Hd Hin; [destruct Hin|].
  simpl in Hd. destruct (h !! q) as [c|] eqn:Hq; [|discriminate].
  apply andb_true_iff in Hd as [Hq0 Hd]. apply negb_true_iff in Hq0.
  destruct Hin as [<-|Hin].
  - split; [now apply N.eqb_neq|eauto].
  - destruct (IH _ p Hd Hin) as [Hp [c' Hc']]. split; [exact Hp|].
    destruct (decide (q = p)) as [->|Hne].
    + rewrite lookup_delete_eq in Hc'. discriminate.
    + rewrite lookup_delete_ne in Hc' by exact Hne. eauto.
Qed.

Lemma typed_slots_mono ps : forall cs (h h' : gmap N cls),
  (forall q k, h !! q = Some k -> h' !! q = Some k) ->
  typed_slots h ps cs = true -> typed_slots h' ps cs = true.
Proof.
  induction ps as [|p ps IH]; intros [|c cs] h h' Hk H; simpl in *;
    try discriminate; [reflexivity|].
  destruct (h !! p) as [c'|] eqn:Hp; [|discriminate].
  rewrite (Hk _ _ Hp). apply andb_true_iff in H as [H1 H2].
  rewrite H1. simpl. now apply (IH cs h h').
Qed.

Lemma typed_slots_lookup ps : forall cs (h : gmap N cls) i c,
  typed_slots h ps cs = true -> cs !! i = Some c ->
  exists p, ps !! i = Some p /\ h !! p = Some c.
Proof.
  induction ps as [|p ps IH]; intros [|c0 cs] h i c H Hi; simpl in *;
    try discriminate.
  destruct (h !! p) as [c'|] eqn:Hp; [|discriminate].
  apply andb_true_iff in H as [H1 H2]. apply Nat.eqb_eq in H1. subst c'.
  destruct i as [|i]; simpl in *.
  - injection Hi as <-. eauto.
  - now apply (IH cs h i c).
Qed.

Lemma typed_slots_length ps : forall cs (h : gmap N cls),
  typed_slots h ps cs = true -> length ps = length cs.
Proof.
  induction ps as [|p ps IH]; intros [|c cs] h H; simpl in *;
    try discriminate; [reflexivity|].
  destruct (h !! p); [|discriminate].
  apply andb_true_iff in H as [_ H]. f_equal. now apply (IH cs h).
Qed.

Lemma new_states_full cfg cs : forall m w,
  exists ps w',
    new_states cfg cs m w = Returns ps m w'
    /\ pool_ w' = pool_ w /\ trace w' = trace w
    /\ distinct_live (heap w') ps = true
    /\ typed_slots (heap w') ps cs = true
    /\ (forall q, In q ps -> heap w !! q = None)
    /\ (forall q, ~ In q ps -> heap w' !! q = heap w !! q).
Proof.
  induction cs as [|c cs IH]; intros m w.
  - exists [], w. simpl. repeat split; auto. intros q [].
  - destruct (new_states_spec cfg (c :: cs) m w)
      as (ps0 & w' & E & Hpool & Hd & Hfresh).
    pose proof (only_allocates_new_states cfg _ _ _ _ _ _ E)
      as (_ & Htr & Hkeep).
    set (p := operator_new cfg (heap w)).
    set (w1 := {| heap := <[p := c]> (heap w); pool_ := pool_ w;
                  trace := trace w |}).
    destruct (IH m w1) as (ps & w2 & E2 & _ & _ & _ & Hty & Hfresh2 & Hout).
    assert (Hnew : new_ cfg c m w = Returns p m w1) by reflexivity.
    assert (E' : new_states cfg (c :: cs) m w = Returns (p :: ps) m w2).
    { simpl. now rewrite (bind_returns _ _ _ _ _ _ _ Hnew),
        (bind_returns _ _ _ _ _ _ _ E2). }
    rewrite E' in E. injection E as <- <-.
    exists (p :: ps), w2.
    assert (Hnotin : ~ In p ps).
    { intros Hin. apply Hfresh2 in Hin. simpl in Hin.
      rewrite lookup_insert_eq in Hin. discriminate. }
    assert (Hp2 : heap w2 !! p = Some c).
    { rewrite (Hout p Hnotin). simpl. apply lookup_insert_eq. }
    repeat split; try assumption.
    + simpl. rewrite Hp2, Nat.eqb_refl. exact Hty.
    + intros q Hq. rewrite Hout by (intros H; apply Hq; now right).
      simpl. apply lookup_insert_ne. intros H. apply Hq. now left.
Qed.

(** X4: on a store without an internal pool, [get_pool] builds one object
    per declared state class, in declaration order, at pairwise distinct
    non-null addresses that were free before; it leaves every other object
    alone and calls no hook.  A second [get_pool] returns the same array and
    changes nothing. *)
Theorem get_pool_builds_once cfg m w :
  pool_ w = None ->
  exists slots w1,
    get_pool cfg m w = Returns slots m w1
    /\ pool_ w1 = Some slots
    /\ length slots = size cfg
    /\ typed_slots (heap w1) slots (states cfg) = true
    /\ distinct_live (heap w1) slots = true
    /\ (forall q, In q slots -> heap w !! q = None)
    /\ (forall q, ~ In q slots -> heap w1 !! q = heap w !! q)
    /\ trace w1 = trace w
    /\ get_pool cfg m w1 = Returns slots m w1.
Proof.
  intros Hnone.
  destruct (new_states_full cfg (states cfg) m w)
    as (ps & w' & E & _ & Htr & Hd & Hty & Hfresh & Hout).
  exists ps, {| heap := heap w'; pool_ := Some ps; trace := trace w' |}.
  split.
  { unfold get_pool.
    rewrite (bind_returns _ _ _ _ (pool_ w) m w) by reflexivity.
    rewrite Hnone. now rewrite (bind_returns _ _ _ _ _ _ _ E). }
  simpl. repeat split; try assumption.
  now apply (typed_slots_length ps (states cfg) (heap w')).
Qed.

Lemma get_pool_builds_once_witness :
  exists slots w1,
    get_pool int_cfg fresh_machine world_0 = Returns slots fresh_machine w1
    /\ pool_ w1 = Some slots
    /\ length slots = 3%nat.
Proof.
  destruct (get_pool_builds_once int_cfg fresh_machine world_0 eq_refl)
    as (slots & w1 & E & Hp & Hl & _).
  exists slots, w1. auto.
Defined.

Lemma delete_pool_spec cfg m w :
  alloc cfg = INTERNAL -> pool_intact w = true ->
  delete_pool cfg m w =
    Returns tt m
      {| heap := match pool_ w with
                 | Some slots => released slots (heap w)
                 | None => heap w
                 end;
         pool_ := None; trace := trace w |}.
Proof.
  intros Hal Hi. unfold delete_pool. rewrite Hal.
  unfold pool_intact in Hi. destruct (pool_ w) as [slots|] eqn:Hp.
  - assert (Eg : get_pool cfg m w = Returns slots m w).
    { unfold get_pool.
      rewrite (bind_returns _ _ _ _ (pool_ w) m w) by reflexivity.
      now rewrite Hp. }
    rewrite (bind_returns _ _ _ _ _ _ _ Eg).
    rewrite (bind_returns _ _ _ _ _ _ _ (delete_states_released slots m w Hi)).
    reflexivity.
  - destruct (new_states_full cfg (states cfg) m w)
      as (ps & w' & E & Hpl & Htr & Hd & _ & Hfresh & Hout).
    set (w1 := {| heap := heap w'; pool_ := Some ps; trace := trace w' |}).
    assert (Eg : get_pool cfg m w = Returns ps m w1).
    { unfold get_pool.
      rewrite (bind_returns _ _ _ _ (pool_ w) m w) by reflexivity.
      rewrite Hp. now rewrite (bind_returns _ _ _ _ _ _ _ E). }
    rewrite (bind_returns _ _ _ _ _ _ _ Eg).
    rewrite (bind_returns _ _ _ _ _ _ _ (delete_states_released ps m w1 Hd)).
    unfold set_static_pool. simpl. rewrite Htr. f_equal. f_equal.
    apply map_eq. intros q.
    destruct (decide (q ∈ ps)) as [Hin|Hin].
    + apply list_elem_of_In in Hin.
      now rewrite released_lookup_in, Hfresh.
    + rewrite list_elem_of_In in Hin.
      now rewrite released_lookup_out, Hout.
Qed.

(** X5: under the internal strategy, [delete_pool] on a store whose pool is
    intact releases exactly the pooled objects and resets the static pool
    pointer; on a store without a pool it first builds one and then releases
    it again, so the store ends as it began.  Either way no hook is called,
    and a second [delete_pool] right after leaves the store unchanged. *)
Theorem delete_pool_releases_the_pool cfg m w :
  alloc cfg = INTERNAL -> pool_intact w = true ->
  exists w',
    delete_pool cfg m w = Returns tt m w'
    /\ pool_ w' = None
    /\ trace w' = trace w
    /\ (pool_ w = None -> heap w' = heap w)
    /\ (forall slots, pool_ w = Some slots ->
          heap w' = released slots (heap w)
          /\ (forall q, In q slots -> heap w' !! q = None)
          /\ (forall q, ~ In q slots -> heap w' !! q = heap w !! q))
    /\ delete_pool cfg m w' = Returns tt m w'.
Proof.
  intros Hal Hi. eexists. split; [now apply delete_pool_spec|]. simpl.
  split; [reflexivity|]. split; [reflexivity|]. split; [|split].
  - intros ->. reflexivity.
  - intros slots ->. split; [reflexivity|]. split.
    + intros q Hq. now apply released_lookup_in.
    + intros q Hq. now apply released_lookup_out.
  - now rewrite delete_pool_spec.
Qed.

Lemma delete_pool_releases_the_pool_witness :
  exists w',
    delete_pool int_cfg fresh_machine world_pool = Returns tt fresh_machine w'
    /\ pool_ w' = None
    /\ heap w' !! 2 = None.
Proof.
  destruct (delete_pool_releases_the_pool int_cfg fresh_machine world_pool
              eq_refl eq_refl) as (w' & E & Hp & _ & _ & Hs & _).
  exists w'. split; [exact E|]. split; [exact Hp|].
  destruct (Hs [1; 2; 3] eq_refl) as (_ & Hdead & _).
  apply Hdead. simpl. auto.
Defined.

Lemma allocate_state_internal cfg s m w :
  alloc cfg = INTERNAL ->
  states cfg !! type_id cfg s = Some s ->
  pool_intact w = true -> pool_typed cfg w = true ->
  exists p w1,
    allocate_state cfg s m w = Returns p m w1
    /\ p <> nullptr /\ heap w1 !! p = Some s
    /\ pool_intact w1 = true /\ pool_typed cfg w1 = true
    /\ trace w1 = trace w
    /\ (forall q k, heap w !! q = Some k -> heap w1 !! q = Some k).
Proof.
  intros Hal Hid Hi Hty.
  assert (Hlt : Nat.ltb (type_id cfg s) (size cfg) = true).
  { apply Nat.ltb_lt. unfold size. now apply lookup_lt_Some in Hid. }
  assert (Hgp : exists slots w1,
    get_pool cfg m w = Returns slots m w1
    /\ pool_ w1 = Some slots
    /\ distinct_live (heap w1) slots = true
    /\ typed_slots (heap w1) slots (states cfg) = true
    /\ trace w1 = trace w
    /\ (forall q k, heap w !! q = Some k -> heap w1 !! q = Some k)).
  { unfold pool_intact, pool_typed in *.
    destruct (pool_ w) as [slots|] eqn:Hp.
    - exists slots, w. split; [|auto].
      unfold get_pool.
      rewrite (bind_returns _ _ _ _ (pool_ w) m w) by reflexivity.
      now rewrite Hp.
    - destruct (get_pool_spec cfg m w) as (slots & w1 & Eg & Ht & Hp1 & Hd).
      { unfold pool_intact. now rewrite Hp. }
      pose proof (only_allocates_get_pool cfg _ _ _ _ _ Eg) as (_ & _ & Hk).
      exists slots, w1. repeat split; try assumption.
      destruct (new_states_full cfg (states cfg) m w)
        as (ps & w' & E & _ & _ & _ & Hty' & _).
      unfold get_pool in Eg.
      rewrite (bind_returns _ _ _ _ (pool_ w) m w) in Eg by reflexivity.
      rewrite Hp, (bind_returns _ _ _ _ _ _ _ E) in Eg.
      unfold bind, set_static_pool, ret in Eg. injection Eg as <- <-.
      exact Hty'. }
  destruct Hgp as (slots & w1 & Eg & Hp1 & Hd & Hty1 & Ht & Hk).
  destruct (typed_slots_lookup slots (states cfg) (heap w1) _ s Hty1 Hid)
    as (p & Hsl & Hps).
  exists p, w1. split.
  { unfold allocate_state. rewrite Hal. unfold state_of_internal.
    now rewrite (bind_returns _ _ _ _ _ _ _ Eg), Hlt, Hsl. }
  split.
  { apply (distinct_live_nonnull slots (heap w1) p Hd).
    apply list_elem_of_In, list_elem_of_lookup. eauto. }
  unfold pool_intact, pool_typed. rewrite Hp1. auto.
Qed.

(** X6: under the internal strategy, when the type identifier of a declared
    state S is its position among [states...] and the pool (if already built)
    is intact and holds the declared classes in order, [start<S>] never
    throws: it returns with a live S object as current state, after exactly
    one call to [on_enter] of S, builds the pool if need be, and releases
    nothing. *)
Theorem internal_start_enters_the_declared_state cfg s d m w :
  alloc cfg = INTERNAL ->
  states cfg !! type_id cfg s = Some s ->
  pool_intact w = true -> pool_typed cfg w = true ->
  exists p w',
    start cfg s d m w = Returns tt {| p_current_state := p |} w'
    /\ current_is {| p_current_state := p |} w' s
    /\ trace w' = trace w ++ [on_enter s p d]
    /\ pool_intact w' = true /\ pool_typed cfg w' = true
    /\ (forall q k, heap w !! q = Some k -> heap w' !! q = Some k).
Proof.
  intros Hal Hid Hi Hty.
  destruct (allocate_state_internal cfg s m w Hal Hid Hi Hty)
    as (p & w1 & Ea & Hp & Hps & Hi1 & Hty1 & Ht & Hk).
  assert (Hv : is_valid_state cfg s = true).
  { unfold is_valid_state. apply existsb_exists. exists s.
    split; [|apply Nat.eqb_refl].
    apply list_elem_of_In, list_elem_of_lookup. eauto. }
  eexists p, _. split; [exact (start_returns cfg s d m w p m w1 s Hv Ea Hp Hps)|].
  simpl. split; [split; assumption|]. auto.
Qed.

Lemma internal_start_enters_the_declared_state_witness :
  exists p w',
    start int_cfg state_b 7 fresh_machine world_0
      = Returns tt {| p_current_state := p |} w'
    /\ current_is {| p_current_state := p |} w' state_b
    /\ trace w' = [on_enter state_b p 7].
Proof.
  destruct (internal_start_enters_the_declared_state int_cfg state_b 7
              fresh_machine world_0 eq_refl eq_refl eq_refl eq_refl)
    as (p & w' & E & Hc & Ht & _).
  exists p, w'. auto.
Defined.

Lemma dynamic_cast_dangling cfg t p m w :
  p <> nullptr -> heap w !! p = None -> dynamic_cast cfg t p m w = Undefined.
Proof.
  intros Hp Hd. unfold dynamic_cast. rewrite (eqb_null_false _ Hp).
  unfold_ops. now rewrite Hd.
Qed.

Lemma stop_internal cfg d m w c slots :
  alloc cfg = INTERNAL -> pool_ w = Some slots -> pool_intact w = true ->
  current_is m w c ->
  stop cfg d m w =
    Returns tt fresh_machine
      {| heap := released slots (heap w); pool_ := None;
         trace := trace w ++ [on_exit c (p_current_state m) d] |}.
Proof.
  intros Hal Hpool Hi [Hp Hc]. unfold stop.
  rewrite bind_get_current, (eqb_null_false _ Hp).
  set (w1 := {| heap := heap w; pool_ := pool_ w;
                trace := trace w ++ [on_exit c (p_current_state m) d] |}).
  assert (Hexit : call_on_exit (p_current_state m) d m w = Returns tt m w1).
  { unfold_ops. now rewrite Hc. }
  rewrite (bind_returns _ _ _ _ _ _ _ Hexit).
  assert (Hcl : delete_current_state cfg m w1 = Returns tt fresh_machine w1).
  { unfold delete_current_state. now rewrite Hal. }
  rewrite (bind_returns _ _ _ _ _ _ _ Hcl).
  rewrite delete_pool_spec by assumption. simpl. now rewrite Hpool.
Qed.

(** X7: under the internal strategy [stop] tears the pool down even when
    other machines of the same configuration still use it: after one machine
    has stopped, every pooled object is released, and a second machine whose
    current state is one of them holds a dangling handle, so that its
    introspection, its transitions and its own [stop] have undefined
    behaviour. *)
Theorem internal_stop_strands_other_machines cfg d m w c slots :
  alloc cfg = INTERNAL -> pool_ w = Some slots -> pool_intact w = true ->
  current_is m w c ->
  exists w',
    stop cfg d m w = Returns tt fresh_machine w'
    /\ pool_ w' = None
    /\ (forall q, In q slots -> heap w' !! q = None)
    /\ (forall m2, In (p_current_state m2) slots ->
          (forall t, state cfg t m2 w' = Undefined)
          /\ (forall from_state to_state d2,
                registered cfg from_state to_state = true ->
                transition cfg from_state to_state d2 m2 w' = Undefined)
          /\ (forall d2, stop cfg d2 m2 w' = Undefined)).
Proof.
  intros Hal Hpool Hi Hcur.
  eexists. split; [exact (stop_internal cfg d m w c slots Hal Hpool Hi Hcur)|].
  simpl. split; [reflexivity|].
  assert (Hdead : forall q, In q slots -> released slots (heap w) !! q = None)
    by (intros q Hq; now apply released_lookup_in).
  split; [exact Hdead|].
  intros m2 Hin.
  unfold pool_intact in Hi. rewrite Hpool in Hi.
  destruct (distinct_live_nonnull slots (heap w) _ Hi Hin) as [Hp2 _].
  specialize (Hdead _ Hin).
  split; [|split].
  - intros t. unfold state. rewrite bind_get_current.
    now apply dynamic_cast_dangling.
  - intros f t d2 Hr. apply registered_inv in Hr as (H1 & H2 & H3).
    unfold transition. rewrite H1, H2, H3. simpl.
    rewrite bind_get_current. unfold bind at 1.
    now rewrite dynamic_cast_dangling.
  - intros d2. unfold stop.
    rewrite bind_get_current, (eqb_null_false _ Hp2).
    unfold bind at 1. unfold_ops. simpl. now rewrite Hdead.
Qed.

Lemma internal_stop_strands_other_machines_witness :
  exists w',
    stop int_cfg 7 {| p_current_state := 1 |} world_pool
      = Returns tt fresh_machine w'
    /\ state int_cfg state_b {| p_current_state := 2 |} w' = Undefined.
Proof.
  destruct (internal_stop_strands_other_machines int_cfg 7
              {| p_current_state := 1 |} world_pool state_a [1; 2; 3]
              eq_refl eq_refl eq_refl) as (w' & E & _ & _ & Hm2).
  - split; [discriminate|reflexivity].
  - exists w'. split; [exact E|].
    apply (Hm2 {| p_current_state := 2 |}). simpl. auto.
Defined.

(** *** The external pool is only read *)

Section KeepsStore.
Context {A B : Type}.

Lemma keeps_store_ret (a : A) : keeps_store (ret a).
Proof. intros m w. simpl. auto. Qed.

Lemma keeps_store_throw e : keeps_store (@throw A e).
Proof. intros m w. simpl. auto. Qed.

Lemma keeps_store_undefined : keeps_store (@undefined A).
Proof. intros m w. exact I. Qed.

Lemma keeps_store_rejected : keeps_store (@rejected A).
Proof. intros m w. exact I. Qed.

Lemma keeps_store_bind (c : M A) (k : A -> M B) :
  keeps_store c -> (forall a, keeps_store (k a)) -> keeps_store (bind c k).
Proof.
  intros Hc Hk m w. specialize (Hc m w). unfold bind.
  destruct (c m w) as [a m1 w1|e m1 w1| |]; try exact I.
  - specialize (Hk a m1 w1). destruct Hc as [Hh Hp].
    destruct (k a m1 w1) as [b m2 w2|e m2 w2| |]; try exact I;
      destruct Hk as [Hh2 Hp2]; split; congruence.
  - exact Hc.
Qed.
End KeepsStore.

Lemma keeps_store_get_current : keeps_store get_current.
Proof. intros m w. simpl. auto. Qed.

Lemma keeps_store_set_current p : keeps_store (set_current p).
Proof. intros m w. simpl. auto. Qed.

Lemma keeps_store_emit ev : keeps_store (emit ev).
Proof. intros m w. simpl. auto. Qed.

Lemma keeps_store_dynamic_type p : keeps_store (dynamic_type p).
Proof.
  intros m w. unfold dynamic_type. destruct (heap w !! p); simpl; auto.
Qed.

Create HintDb keepstore.
#[local] Hint Resolve keeps_store_ret keeps_store_throw keeps_store_undefined
  keeps_store_rejected keeps_store_bind keeps_store_get_current
  keeps_store_set_current keeps_store_emit keeps_store_dynamic_type
  : keepstore.

Lemma keeps_store_dynamic_cast cfg t p : keeps_store (dynamic_cast cfg t p).
Proof.
  unfold dynamic_cast. destruct (N.eqb p nullptr); auto with keepstore.
Qed.

Lemma keeps_store_call_on_enter p d : keeps_store (call_on_enter p d).
Proof. unfold call_on_enter. auto with keepstore. Qed.

Lemma keeps_store_call_on_exit p d : keeps_store (call_on_exit p d).
Proof. unfold call_on_exit. auto with keepstore. Qed.

Lemma keeps_store_state_of_pool cfg pool tid :
  keeps_store (state_of_pool cfg pool tid).
Proof.
  unfold state_of_pool. destruct (Nat.ltb _ _); [|auto with keepstore].
  destruct pool as [slots|]; [|auto with keepstore].
  destruct (slots !! tid); auto with keepstore.
Qed.

#[local] Hint Resolve keeps_store_dynamic_cast keeps_store_call_on_enter
  keeps_store_call_on_exit keeps_store_state_of_pool : keepstore.

(** X8: a machine over a caller's array never allocates and never releases:
    whether [start], [transition], [stop] or the destructor returns or
    throws, the live objects and the static pool pointer are exactly those
    from before the call. *)
Theorem external_pool_is_never_owned cfg :
  alloc cfg = PREALLOCED ->
  (forall s d, keeps_store (start cfg s d))
  /\ (forall from_state to_state d,
        keeps_store (transition cfg from_state to_state d))
  /\ (forall d, keeps_store (stop cfg d))
  /\ keeps_store (destroy cfg).
Proof.
  intros Hal.
  assert (Ha : forall s, keeps_store (allocate_state cfg s)).
  { intros s. unfold allocate_state. rewrite Hal. auto with keepstore. }
  assert (Hd : keeps_store (delete_current_state cfg)).
  { unfold delete_current_state. rewrite Hal. auto 6 with keepstore. }
  assert (Hp : keeps_store (delete_pool cfg)).
  { unfold delete_pool. rewrite Hal. auto with keepstore. }
  split; [|split; [|split]].
  - intros s d. unfold start.
    destruct (negb (is_valid_state cfg s)); [auto with keepstore|].
    apply keeps_store_bind; [apply Ha|]. intros p.
    apply keeps_store_bind; [auto with keepstore|]. intros _.
    destruct (N.eqb p nullptr); auto with keepstore.
  - intros f t d. unfold transition.
    destruct (negb (transition_exists cfg f t)); [auto with keepstore|].
    destruct (negb (is_valid_state cfg f)); [auto with keepstore|].
    destruct (negb (is_valid_state cfg t)); [auto with keepstore|].
    apply keeps_store_bind; [auto with keepstore|]. intros cur.
    apply keeps_store_bind; [auto with keepstore|]. intros q.
    destruct (N.eqb q nullptr); [auto with keepstore|].
    apply keeps_store_bind; [auto with keepstore|]. intros cur'.
    destruct (N.eqb cur' nullptr); [auto with keepstore|].
    apply keeps_store_bind; [apply Ha|]. intros pn.
    destruct (N.eqb pn nullptr); [auto with keepstore|].
    rewrite Hal. auto 12 with keepstore.
  - intros d. unfold stop.
    apply keeps_store_bind; [auto with keepstore|]. intros cur.
    destruct (N.eqb cur nullptr); auto 6 with keepstore.
  - unfold destroy.
    apply keeps_store_bind; [auto with keepstore|]. intros cur.
    destruct (N.eqb cur nullptr); auto 6 with keepstore.
Qed.

Lemma external_pool_is_never_owned_witness :
  exists w',
    stop ext_cfg 7 machine_16 world_abc = Returns tt fresh_machine w'
    /\ heap w' = heap world_abc.
Proof.
  pose proof (proj1 (proj2 (proj2
    (external_pool_is_never_owned ext_cfg eq_refl))) 7 machine_16 world_abc)
    as H.
  destruct (stop ext_cfg 7 machine_16 world_abc) as [[] m' w'| | |] eqn:E;
    try discriminate E.
  exists w'. split; [|exact (proj1 H)].
  vm_compute in E. injection E as <- _. reflexivity.
Defined.

(** *** Every outcome of [transition] *)

(** The outcome of a call that compiles, case by case. *)
Lemma transition_outcome cfg f t d m w :
  registered cfg f t = true ->
  transition cfg f t d m w =
    if N.eqb (p_current_state m) nullptr then Returns false m w
    else
      match heap w !! p_current_state m with
      | None => Undefined
      | Some c =>
          if is_a cfg c f then
            match allocate_state cfg t m w with
            | Returns pn _ w1 =>
                if N.eqb pn nullptr then Throws (allocation_error cfg) m w1
                else
                  let h2 := match alloc cfg with
                            | LAZY => delete (p_current_state m) (heap w1)
                            | _ => heap w1
                            end in
                  match h2 !! pn with
                  | Some k =>
                      Returns true {| p_current_state := pn |}
                        {| heap := h2; pool_ := pool_ w1;
                           trace :=
                             trace w ++ [on_exit c (p_current_state m) d;
                                         transition_action f t d;
                                         on_enter k pn d] |}
                  | None => Undefined
                  end
            | Throws e m' w' => Throws e m' w'
            | Undefined => Undefined
            | Rejected => Rejected
            end
          else Returns false m w
      end.
Proof.
  intros Hr. apply registered_inv in Hr as (H1 & H2 & H3).
  unfold transition. rewrite H1, H2, H3. simpl.
  rewrite bind_get_current.
  destruct (N.eqb (p_current_state m) nullptr) eqn:E0.
  { assert (Hc : dynamic_cast cfg f (p_current_state m) m w
                 = Returns nullptr m w).
    { unfold dynamic_cast. now rewrite E0. }
    now rewrite (bind_returns _ _ _ _ _ _ _ Hc). }
  pose proof E0 as Hp. apply N.eqb_neq in Hp.
  destruct (heap w !! p_current_state m) as [c|] eqn:Hc.
  2:{ unfold bind at 1. now rewrite dynamic_cast_dangling. }
  rewrite (bind_returns _ _ _ _ _ _ _ (dynamic_cast_live cfg f _ c m w Hp Hc)).
  destruct (is_a cfg c f); [|reflexivity].
  rewrite E0, bind_get_current, E0. unfold bind at 1.
  destruct (allocate_state cfg t m w) as [pn m1 w1|e m1 w1| |] eqn:Ea;
    try reflexivity.
  pose proof (only_allocates_allocate_state cfg t _ _ _ _ _ Ea)
    as (-> & Ht & Hkeep).
  pose proof (Hkeep _ _ Hc) as Hc1.
  destruct (N.eqb pn nullptr) eqn:En; [reflexivity|].
  rewrite bind_get_current.
  assert (Hhead : forall k0 : unit -> M bool,
    bind (call_on_exit (p_current_state m) d) k0 m w1 =
    k0 tt m {| heap := heap w1; pool_ := pool_ w1;
               trace := trace w1 ++ [on_exit c (p_current_state m) d] |}).
  { intros k0. unfold_ops. now rewrite Hc1. }
  rewrite Hhead. cbv zeta.
  destruct (alloc cfg).
  - unfold_ops. simpl. rewrite E0, Hc1. simpl.
    destruct (delete (p_current_state m) (heap w1) !! pn); [|reflexivity].
    simpl. rewrite Ht, <- !app_assoc. reflexivity.
  - unfold_ops. simpl. destruct (heap w1 !! pn); [|reflexivity].
    simpl. rewrite Ht, <- !app_assoc. reflexivity.
  - unfold_ops. simpl. destruct (heap w1 !! pn); [|reflexivity].
    simpl. rewrite Ht, <- !app_assoc. reflexivity.
Qed.

Lemma transition_unregistered cfg f t d m w :
  registered cfg f t = false -> transition cfg f t d m w = Rejected.
Proof.
  unfold registered, transition. intros H.
  destruct (transition_exists cfg f t); [|reflexivity].
  destruct (is_valid_state cfg f); [|reflexivity].
  destruct (is_valid_state cfg t); [discriminate|reflexivity].
Qed.

(** X9: a [transition] that returns false has changed nothing at all: the
    machine holds the handle it held, no object was allocated or released,
    the pool is untouched and no hook or action was called. *)
Theorem false_return_leaves_everything cfg from_state to_state d m w m' w' :
  transition cfg from_state to_state d m w = Returns false m' w' ->
  m' = m /\ w' = w.
Proof.
  intros H.
  destruct (registered cfg from_state to_state) eqn:Hr.
  2:{ rewrite transition_unregistered in H by exact Hr. discriminate. }
  rewrite transition_outcome in H by exact Hr.
  destruct (N.eqb (p_current_state m) nullptr).
  { injection H as <- <-. auto. }
  destruct (heap w !! p_current_state m) as [c|]; [|discriminate].
  destruct (is_a cfg c from_state).
  - destruct (allocate_state cfg to_state m w) as [pn m1 w1|e m1 w1| |];
      try discriminate.
    destruct (N.eqb pn nullptr); [discriminate|]. cbv zeta in H.
    destruct (match alloc cfg with LAZY => _ | _ => _ end !! pn);
      discriminate.
  - injection H as <- <-. auto.
Qed.

Lemma false_return_leaves_everything_witness :
  transition lazy_cfg state_b state_a 7 machine_16 world_a
    = Returns false machine_16 world_a
  /\ machine_16 = machine_16 /\ world_a = world_a.
Proof.
  assert (E : transition lazy_cfg state_b state_a 7 machine_16 world_a
              = Returns false machine_16 world_a) by (vm_compute; reflexivity).
  split; [exact E|].
  exact (false_return_leaves_everything lazy_cfg state_b state_a 7
           machine_16 world_a machine_16 world_a E).
Defined.

(** X10: a [transition] that returns true has done exactly this: the machine
    held a live object whose class is From or derives from it, the calls made
    are [on_exit] on that object, the action of the edge and [on_enter] on
    the new current object, in that order and with the caller's [data], and
    the machine now holds a non-null handle to a live object.  So a started
    machine never ends a transition with a dangling or null handle. *)
Theorem true_return_means_fired cfg from_state to_state d m w m' w' :
  transition cfg from_state to_state d m w = Returns true m' w' ->
  exists c k,
    current_is m w c
    /\ is_a cfg c from_state = true
    /\ current_is m' w' k
    /\ trace w' =
         trace w ++ [on_exit c (p_current_state m) d;
                     transition_action from_state to_state d;
                     on_enter k (p_current_state m') d].
Proof.
  intros H.
  destruct (registered cfg from_state to_state) eqn:Hr.
  2:{ rewrite transition_unregistered in H by exact Hr. discriminate. }
  rewrite transition_outcome in H by exact Hr.
  destruct (N.eqb (p_current_state m) nullptr) eqn:E0; [discriminate|].
  apply N.eqb_neq in E0.
  destruct (heap w !! p_current_state m) as [c|] eqn:Hc; [|discriminate].
  destruct (is_a cfg c from_state) eqn:Hisa; [|discriminate].
  destruct (allocate_state cfg to_state m w) as [pn m1 w1|e m1 w1| |];
    try discriminate.
  destruct (N.eqb pn nullptr) eqn:En; [discriminate|]. apply N.eqb_neq in En.
  cbv zeta in H.
  destruct (match alloc cfg with LAZY => _ | _ => _ end !! pn) as [k|] eqn:Hk;
    [|discriminate].
  injection H as <- <-. exists c, k. simpl.
  split; [split; assumption|]. split; [exact Hisa|].
  split; [split; assumption|reflexivity].
Qed.

Lemma true_return_means_fired_witness :
  exists c k w',
    transition swapped_cfg state_a state_b 7 machine_16 world_abc
      = Returns true machine_16 w'
    /\ current_is machine_16 world_abc c
    /\ current_is machine_16 w' k.
Proof.
  assert (E : exists w', transition swapped_cfg state_a state_b 7 machine_16
                           world_abc = Returns true machine_16 w').
  { eexists. vm_compute. reflexivity. }
  destruct E as [w' E].
  destruct (true_return_means_fired swapped_cfg state_a state_b 7 machine_16
              world_abc machine_16 w' E) as (c & k & Hc & _ & Hk & _).
  exists c, k, w'. auto.
Defined.

(** *** Lazily allocated states *)

Lemma transition_lazy cfg f t d m w c :
  alloc cfg = LAZY -> registered cfg f t = true -> current_is m w c ->
  transition cfg f t d m w =
    if is_a cfg c f then
      let pn := operator_new cfg (heap w) in
      Returns true {| p_current_state := pn |}
        {| heap := delete (p_current_state m) (<[pn := t]> (heap w));
           pool_ := pool_ w;
           trace := trace w ++ [on_exit c (p_current_state m) d;
                                transition_action f t d;
                                on_enter t pn d] |}
    else Returns false m w.
Proof.
  intros Hal Hr [Hp Hc].
  rewrite transition_outcome by exact Hr.
  rewrite (eqb_null_false _ Hp), Hc.
  destruct (is_a cfg c f); [|reflexivity].
  destruct (allocate_state_lazy cfg t m w Hal) as (Ea & Hpn & Hfresh).
  rewrite Ea, (eqb_null_false _ Hpn), Hal. cbv zeta. simpl.
  rewrite lookup_delete_ne by (intros E; rewrite E in Hc; congruence).
  now rewrite lookup_insert_eq.
Qed.

(** X11: under the lazy strategy a transition that fires allocates exactly
    one object, of class To, at an address that was free, and releases
    exactly the object that was current: every other object is untouched and
    the number of live objects is what it was. *)
Theorem lazy_transition_swaps_one_object cfg from_state to_state d m w c :
  alloc cfg = LAZY ->
  registered cfg from_state to_state = true ->
  current_is m w c -> is_a cfg c from_state = true ->
  let pn := operator_new cfg (heap w) in
  exists w',
    transition cfg from_state to_state d m w
      = Returns true {| p_current_state := pn |} w'
    /\ pn <> p_current_state m
    /\ heap w !! pn = None
    /\ heap w' !! pn = Some to_state
    /\ heap w' !! p_current_state m = None
    /\ (forall q, q <> pn -> q <> p_current_state m ->
          heap w' !! q = heap w !! q)
    /\ base.size (heap w') = base.size (heap w)
    /\ pool_ w' = pool_ w.
Proof.
  intros Hal Hr Hcur Hisa pn.
  rewrite (transition_lazy cfg from_state to_state d m w c Hal Hr Hcur), Hisa.
  destruct Hcur as [Hp Hc].
  destruct (operator_new_fresh cfg (heap w)) as [Hpn Hfresh]. fold pn in Hpn, Hfresh.
  assert (Hne : pn <> p_current_state m) by (intros E; congruence).
  eexists. split; [reflexivity|]. cbv zeta. simpl. fold pn.
  split; [exact Hne|]. split; [exact Hfresh|]. split.
  { rewrite lookup_delete_ne by congruence. apply lookup_insert_eq. }
  split; [apply lookup_delete_eq|]. split.
  { intros q H1 H2. rewrite lookup_delete_ne by congruence.
    apply lookup_insert_ne. congruence. }
  split; [|reflexivity].
  rewrite map_size_delete_Some.
  - now rewrite map_size_insert_None.
  - rewrite lookup_insert_ne by exact Hne. eauto.
Qed.

Lemma lazy_transition_swaps_one_object_witness :
  exists w',
    transition lazy_cfg state_a state_b 7 machine_16 world_a
      = Returns true {| p_current_state := 17 |} w'
    /\ heap w' !! 16 = None
    /\ base.size (heap w') = base.size (heap world_a).
Proof.
  destruct (lazy_transition_swaps_one_object lazy_cfg state_a state_b 7
              machine_16 world_a state_a eq_refl eq_refl)
    as (w' & E & _ & _ & _ & Hold & _ & Hsz & _).
  - split; [discriminate|reflexivity].
  - reflexivity.
  - exists w'. auto.
Defined.

(** X12: under the lazy strategy, on a machine whose current state is live,
    a registered [transition<From, To>] always returns, and it returns true
    exactly when the guard [state<From>()] is not null. *)
Theorem lazy_guard_predicts_transition cfg from_state to_state d m w c :
  alloc cfg = LAZY ->
  registered cfg from_state to_state = true ->
  current_is m w c ->
  exists q b m' w',
    state cfg from_state m w = Returns q m w
    /\ transition cfg from_state to_state d m w = Returns b m' w'
    /\ (b = true <-> q <> nullptr).
Proof.
  intros Hal Hr Hcur.
  rewrite (state_live cfg from_state m w c Hcur).
  rewrite (transition_lazy cfg from_state to_state d m w c Hal Hr Hcur).
  destruct Hcur as [Hp _].
  destruct (is_a cfg c from_state).
  - eexists _, true, _, _. split; [reflexivity|]. split; [reflexivity|].
    split; auto.
  - eexists _, false, _, _. split; [reflexivity|]. split; [reflexivity|].
    split; [discriminate|]. intros H. now elim H.
Qed.

Lemma lazy_guard_predicts_transition_witness :
  exists q b m' w',
    state lazy_cfg state_b machine_16 world_a = Returns q machine_16 world_a
    /\ transition lazy_cfg state_b state_a 7 machine_16 world_a
         = Returns b m' w'
    /\ (b = true <-> q <> nullptr).
Proof.
  apply (lazy_guard_predicts_transition lazy_cfg state_b state_a 7
           machine_16 world_a state_a); try reflexivity.
  split; [discriminate|reflexivity].
Defined.

(** X13: [start] on a machine that already has a current state neither
    calls that state's exit hook nor releases it: whenever it returns, the
    old object is still live and the only call made is one [on_enter] on the
    new current state.  Under the lazy strategy it always returns, with a
    fresh object as current state, so the old object is left allocated with
    no machine referring to it. *)
Theorem start_abandons_the_previous_state cfg s d m w c :
  is_valid_state cfg s = true ->
  current_is m w c ->
  (forall m' w',
      start cfg s d m w = Returns tt m' w' ->
      heap w' !! p_current_state m = Some c
      /\ exists k, trace w' = trace w ++ [on_enter k (p_current_state m') d])
  /\ (alloc cfg = LAZY ->
      exists m' w',
        start cfg s d m w = Returns tt m' w'
        /\ p_current_state m' <> p_current_state m
        /\ heap w' !! p_current_state m' = Some s).
Proof.
  intros Hv [Hp Hc]. split.
  - intros m' w'. unfold start. rewrite Hv. simpl. unfold bind at 1.
    destruct (allocate_state cfg s m w) as [p m1 w1|e m1 w1| |] eqn:Ea;
      try discriminate.
    pose proof (only_allocates_allocate_state cfg s _ _ _ _ _ Ea)
      as (-> & Ht & Hk).
    unfold bind at 1, set_current at 1.
    destruct (N.eqb p nullptr); [discriminate|].
    unfold_ops. destruct (heap w1 !! p) as [k|]; [|discriminate].
    intros H. injection H as <- <-. simpl.
    split; [now apply Hk|]. exists k. now rewrite Ht.
  - intros Hal.
    destruct (allocate_state_lazy cfg s m w Hal) as (Ea & Hpn & Hfresh).
    eexists _, _. split.
    + apply (start_returns cfg s d m w _ m _ s Hv Ea Hpn).
      simpl. apply lookup_insert_eq.
    + simpl. split; [intros E; rewrite E in Hfresh; simpl in Hfresh; congruence|].
      apply lookup_insert_eq.
Qed.

Lemma start_abandons_the_previous_state_witness :
  exists m' w',
    start lazy_cfg state_b 7 machine_16 world_a = Returns tt m' w'
    /\ heap w' !! 16 = Some state_a
    /\ p_current_state m' <> 16.
Proof.
  destruct (start_abandons_the_previous_state lazy_cfg state_b 7 machine_16
              world_a state_a eq_refl) as [Hany Hlazy].
  - split; [discriminate|reflexivity].
  - destruct (Hlazy eq_refl) as (m' & w' & E & Hne & _).
    exists m', w'. split; [exact E|]. split; [|exact Hne].
    exact (proj1 (Hany m' w' E)).
Defined.

(** *** The destructor *)

Lemma teardown_spec cfg m w c :
  current_is m w c -> pool_intact w = true ->
  (delete_current_state cfg ;;; delete_pool cfg) m w =
    Returns tt fresh_machine
      {| heap := match alloc cfg with
                 | LAZY => delete (p_current_state m) (heap w)
                 | PREALLOCED => heap w
                 | INTERNAL =>
                     match pool_ w with
                     | Some slots => released slots (heap w)
                     | None => heap w
                     end
                 end;
         pool_ := match alloc cfg with
                  | INTERNAL => None
                  | _ => pool_ w
                  end;
         trace := trace w |}.
Proof.
  intros [Hp Hc] Hi.
  destruct (alloc cfg) eqn:Hal.
  - unfold delete_current_state, delete_pool. rewrite Hal.
    unfold_ops. simpl. now rewrite (eqb_null_false _ Hp), Hc.
  - unfold delete_current_state, delete_pool. rewrite Hal.
    unfold_ops. simpl. now destruct w.
  - assert (Hcl : delete_current_state cfg m w = Returns tt fresh_machine w).
    { unfold delete_current_state. now rewrite Hal. }
    rewrite (bind_returns _ _ _ _ _ _ _ Hcl).
    now rewrite delete_pool_spec.
Qed.

(** X14: the destructor of a started machine clears the handle and releases
    the current object under the lazy strategy, every object of the pool
    (and the pool itself) under the internal one, and nothing over a
    caller's array; every other object stays.  [stop] releases exactly the
    same, but the destructor does not call the exit hook of the current
    state: it makes no call into user code at all, where [stop] makes the
    one [on_exit]. *)
Theorem destructor_skips_the_exit_hook cfg d m w c :
  current_is m w c -> pool_intact w = true ->
  exists w_stop w_destroy,
    stop cfg d m w = Returns tt fresh_machine w_stop
    /\ destroy cfg m w = Returns tt fresh_machine w_destroy
    /\ heap w_destroy =
         match alloc cfg with
         | LAZY => delete (p_current_state m) (heap w)
         | PREALLOCED => heap w
         | INTERNAL =>
             match pool_ w with
             | Some slots => released slots (heap w)
             | None => heap w
             end
         end
    /\ pool_ w_destroy =
         match alloc cfg with
         | INTERNAL => None
         | _ => pool_ w
         end
    /\ (alloc cfg = LAZY -> heap w_destroy !! p_current_state m = None)
    /\ (alloc cfg = INTERNAL -> forall slots q,
          pool_ w = Some slots -> In q slots -> heap w_destroy !! q = None)
    /\ heap w_stop = heap w_destroy
    /\ pool_ w_stop = pool_ w_destroy
    /\ trace w_destroy = trace w
    /\ trace w_stop = trace w ++ [on_exit c (p_current_state m) d].
Proof.
  intros Hcur Hi. pose proof Hcur as [Hp Hc].
  set (w1 := {| heap := heap w; pool_ := pool_ w;
                trace := trace w ++ [on_exit c (p_current_state m) d] |}).
  assert (Hexit : call_on_exit (p_current_state m) d m w = Returns tt m w1).
  { unfold_ops. now rewrite Hc. }
  assert (Hcur1 : current_is m w1 c) by (split; assumption).
  eexists _, _. split; [|split].
  - unfold stop. rewrite bind_get_current, (eqb_null_false _ Hp).
    rewrite (bind_returns _ _ _ _ _ _ _ Hexit).
    exact (teardown_spec cfg m w1 c Hcur1 Hi).
  - unfold destroy. rewrite bind_get_current, (eqb_null_false _ Hp).
    exact (teardown_spec cfg m w c Hcur Hi).
  - simpl. split; [reflexivity|]. split; [reflexivity|]. split; [|split].
    + intros ->. apply lookup_delete_eq.
    + intros -> slots q -> Hq. now apply released_lookup_in.
    + auto.
Qed.

Lemma destructor_skips_the_exit_hook_witness :
  (exists w_stop w_destroy,
     stop lazy_cfg 7 machine_16 world_a = Returns tt fresh_machine w_stop
     /\ destroy lazy_cfg machine_16 world_a
          = Returns tt fresh_machine w_destroy
     /\ heap w_destroy !! 16 = None
     /\ trace w_destroy = []
     /\ trace w_stop = [on_exit state_a 16 7])
  /\ (exists w_destroy,
        destroy int_cfg {| p_current_state := 1 |} world_pool
          = Returns tt fresh_machine w_destroy
        /\ pool_ w_destroy = None
        /\ heap w_destroy !! 3 = None).
Proof.
  split.
  - destruct (destructor_skips_the_exit_hook lazy_cfg 7 machine_16 world_a
                state_a)
      as (ws & wd & Es & Ed & _ & _ & Hgone & _ & _ & _ & Htd & Hts).
    + split; [discriminate|reflexivity].
    + reflexivity.
    + exists ws, wd. split; [exact Es|]. split; [exact Ed|].
      split; [exact (Hgone eq_refl)|]. auto.
  - destruct (destructor_skips_the_exit_hook int_cfg 7
                {| p_current_state := 1 |} world_pool state_a)
      as (ws & wd & _ & Ed & _ & Hp & _ & Hpool & _).
    + split; [discriminate|reflexivity].
    + reflexivity.
    + exists wd. split; [exact Ed|]. split; [exact Hp|].
      apply (Hpool eq_refl [1; 2; 3] 3 eq_refl). simpl. auto.
Defined.

(** *** More on [save] and [load] *)

Lemma byte_of_N_to_N b x : byte_of_N (Byte.to_N b + 256 * x) = b.
Proof.
  unfold byte_of_N.
  pose proof (Byte.to_N_bounded b) as Hb.
  replace ((Byte.to_N b + 256 * x) mod 256) with (Byte.to_N b).
  - now rewrite Byte.of_to_N.
  - rewrite (N.mul_comm 256 x), N.Div0.mod_add.
    symmetry. apply N.mod_small. lia.
Qed.

Lemma encode_decode_ptr bs : encode_ptr (length bs) (decode_ptr bs) = bs.
Proof.
  induction bs as [|b bs IH]; [reflexivity|].
  cbn [length encode_ptr decode_ptr]. rewrite byte_of_N_to_N. f_equal.
  pose proof (Byte.to_N_bounded b) as Hb.
  replace ((Byte.to_N b + 256 * decode_ptr bs) / 256) with (decode_ptr bs);
    [exact IH|].
  rewrite N.add_comm, (N.mul_comm 256), N.div_add_l by discriminate.
  rewrite (N.div_small (Byte.to_N b)) by lia. lia.
Qed.

Lemma encode_ptr_null k : encode_ptr k nullptr = replicate k x00.
Proof. induction k as [|k IH]; [reflexivity|]. simpl. now rewrite <- IH. Qed.

Lemma decode_ptr_zeros k : decode_ptr (replicate k x00) = nullptr.
Proof. induction k as [|k IH]; [reflexivity|]. simpl. now rewrite IH. Qed.

(** X15: a [save] into a buffer that is wide enough writes the first
    [sizeof(p_current_state)] bytes only: the buffer keeps its length, every
    byte after the handle is what it was, and the call touches neither the
    store nor the trace. *)
Theorem save_writes_only_the_handle cfg buf datalen m w :
  (ptr_size cfg <= datalen)%nat -> (ptr_size cfg <= length buf)%nat ->
  exists out,
    save cfg (Some buf) datalen m w
      = Returns (ptr_size cfg, Some out) fresh_machine w
    /\ length out = length buf
    /\ take (ptr_size cfg) out = encode_ptr (ptr_size cfg) (p_current_state m)
    /\ drop (ptr_size cfg) out = drop (ptr_size cfg) buf.
Proof.
  intros H1 H2. eexists. split; [now apply save_writes|].
  split; [now apply length_written|]. split; [apply take_written|].
  rewrite drop_app_length'; [reflexivity|].
  symmetry. apply length_encode_ptr.
Qed.

Lemma save_writes_only_the_handle_witness :
  exists out,
    save lazy_cfg (Some (buffer8 ++ buffer3)) 11 machine_16 world_a
      = Returns (8%nat, Some out) fresh_machine world_a
    /\ length out = 11%nat
    /\ drop 8 out = buffer3.
Proof.
  destruct (save_writes_only_the_handle lazy_cfg (buffer8 ++ buffer3) 11
              machine_16 world_a) as (out & E & Hl & _ & Hd).
  - simpl. lia.
  - simpl. lia.
  - exists out. auto.
Defined.

(** X16: the other round trip: a [load] from a buffer followed by a [save]
    of the loading machine into the same buffer leaves the buffer byte for
    byte as it was, and the machine without a current state again. *)
Theorem load_then_save_restores_the_buffer cfg buf datalen m w :
  (ptr_size cfg <= datalen)%nat -> (ptr_size cfg <= length buf)%nat ->
  exists m1,
    load cfg (Some buf) datalen m w = Returns (ptr_size cfg) m1 w
    /\ save cfg (Some buf) datalen m1 w
         = Returns (ptr_size cfg, Some buf) fresh_machine w.
Proof.
  intros H1 H2. eexists. split; [now apply load_reads|].
  rewrite save_writes by assumption. simpl.
  replace (encode_ptr (ptr_size cfg) (decode_ptr (take (ptr_size cfg) buf)))
    with (take (ptr_size cfg) buf).
  - now rewrite take_drop.
  - rewrite <- (encode_decode_ptr (take (ptr_size cfg) buf)) at 1.
    now rewrite length_take_le.
Qed.

Lemma load_then_save_restores_the_buffer_witness :
  exists m1,
    load lazy_cfg (Some (encode_ptr 8 16 ++ buffer3)) 11 fresh_machine world_a
      = Returns 8%nat m1 world_a
    /\ save lazy_cfg (Some (encode_ptr 8 16 ++ buffer3)) 11 m1 world_a
         = Returns (8%nat, Some (encode_ptr 8 16 ++ buffer3)) fresh_machine
             world_a.
Proof.
  apply (load_then_save_restores_the_buffer lazy_cfg
           (encode_ptr 8 16 ++ buffer3) 11 fresh_machine world_a);
    simpl; lia.
Defined.

(** X17: [save] does not look at whether the machine has a current state: on
    a machine without one it still reports [sizeof(p_current_state)] bytes
    written, and what it writes is the null handle.  A [load] of that buffer
    into any machine, started or not, reports success and leaves that
    machine without a current state, with no hook called and nothing
    released.  In particular a second [save] right after a first one
    overwrites the saved handle with null. *)
Theorem save_of_an_empty_machine_writes_null cfg buf datalen m m0 w :
  (ptr_size cfg <= datalen)%nat -> (ptr_size cfg <= length buf)%nat ->
  p_current_state m = nullptr ->
  exists out,
    save cfg (Some buf) datalen m w
      = Returns (ptr_size cfg, Some out) fresh_machine w
    /\ take (ptr_size cfg) out = replicate (ptr_size cfg) x00
    /\ load cfg (Some out) datalen m0 w
         = Returns (ptr_size cfg) fresh_machine w.
Proof.
  intros H1 H2 Hnull. eexists. split; [now apply save_writes|].
  rewrite Hnull, encode_ptr_null. split.
  - rewrite take_app_length'; [reflexivity|].
    symmetry. apply length_replicate.
  - rewrite load_reads; [|exact H1|].
    + rewrite take_app_length' by (symmetry; apply length_replicate).
      now rewrite decode_ptr_zeros.
    + rewrite length_app, length_replicate, length_drop. lia.
Qed.

Lemma save_of_an_empty_machine_writes_null_witness :
  exists out1 out2,
    save lazy_cfg (Some buffer8) 8 machine_16 world_a
      = Returns (8%nat, Some out1) fresh_machine world_a
    /\ save lazy_cfg (Some out1) 8 fresh_machine world_a
         = Returns (8%nat, Some out2) fresh_machine world_a
    /\ load lazy_cfg (Some out2) 8 machine_16 world_a
         = Returns 8%nat fresh_machine world_a.
Proof.
  eexists. 
  destruct (save_of_an_empty_machine_writes_null lazy_cfg
              (encode_ptr 8 16) 8 fresh_machine machine_16 world_a)
    as (out2 & E2 & _ & El); [simpl; lia|simpl; lia|reflexivity|].
  exists out2. split; [vm_compute; reflexivity|]. split; [exact E2|exact El].
Defined.

(** *** The benchmark loop *)

Lemma lazy_step cfg f t d m w :
  alloc cfg = LAZY -> registered cfg f t = true -> current_is m w f ->
  exists m' w' evs,
    transition cfg f t d m w = Returns true m' w'
    /\ current_is m' w' t
    /\ trace w' = trace w ++ evs
    /\ length evs = 3%nat
    /\ base.size (heap w') = base.size (heap w)
    /\ pool_ w' = pool_ w.
Proof.
  intros Hal Hr Hcur.
  rewrite (transition_lazy cfg f t d m w f Hal Hr Hcur), is_a_refl.
  destruct Hcur as [Hp Hc].
  destruct (operator_new_fresh cfg (heap w)) as [Hpn Hfresh].
  assert (Hne : operator_new cfg (heap w) <> p_current_state m)
    by (intros E; congruence).
  eexists _, _, _. split; [reflexivity|]. cbv zeta. unfold current_is. simpl.
  split; [split; [exact Hpn|]|split; [reflexivity|split; [reflexivity|]]].
  - rewrite lookup_delete_ne by congruence. apply lookup_insert_eq.
  - split; [|reflexivity]. rewrite map_size_delete_Some.
    + now rewrite map_size_insert_None.
    + rewrite lookup_insert_ne by exact Hne. eauto.
Qed.

Lemma ping_pong_aligned cfg a b d n : forall i m w,
  alloc cfg = LAZY ->
  registered cfg a b = true -> registered cfg b a = true ->
  current_is m w (if Nat.even i then a else b) ->
  exists m' w' evs,
    ping_pong cfg a b d i n m w = Returns tt m' w'
    /\ current_is m' w' (if Nat.even (i + n) then a else b)
    /\ trace w' = trace w ++ evs
    /\ length evs = (3 * n)%nat
    /\ base.size (heap w') = base.size (heap w)
    /\ pool_ w' = pool_ w.
Proof.
  induction n as [|n IH]; intros i m w Hal Hab Hba Hcur.
  - exists m, w, []. rewrite Nat.add_0_r, app_nil_r. simpl. auto 6.
  - cbn [ping_pong].
    assert (Hstep : exists m1 w1 evs1,
      (if Nat.even i then transition cfg a b d else transition cfg b a d) m w
        = Returns true m1 w1
      /\ current_is m1 w1 (if Nat.even (S i) then a else b)
      /\ trace w1 = trace w ++ evs1
      /\ length evs1 = 3%nat
      /\ base.size (heap w1) = base.size (heap w)
      /\ pool_ w1 = pool_ w).
    { rewrite Nat.even_succ, <- Nat.negb_even.
      destruct (Nat.even i); simpl.
      - now apply lazy_step.
      - now apply lazy_step. }
    destruct Hstep as (m1 & w1 & evs1 & E1 & Hcur1 & Ht1 & Hl1 & Hs1 & Hp1).
    destruct (IH (S i) m1 w1 Hal Hab Hba Hcur1)
      as (m' & w' & evs & E & Hcur' & Ht & Hl & Hs & Hp).
    exists m', w', (evs1 ++ evs). rewrite (bind_returns _ _ _ _ _ _ _ E1).
    split; [exact E|]. replace (i + S n)%nat with (S i + n)%nat by lia.
    split; [exact Hcur'|]. split; [now rewrite Ht, Ht1, app_assoc|].
    split; [rewrite length_app; lia|]. split; congruence.
Qed.

(** X18: the loop of the benchmark on a lazily allocated machine that is in
    state A, with both edges A -> B and B -> A registered: all [n]
    transitions fire, so the trace grows by exactly [3 * n] calls; the
    machine ends in A when [n] is even and in B when it is odd; and the
    number of live objects after the loop is what it was before, however
    large [n] is. *)
Theorem benchmark_loop_alternates cfg a b d n m w :
  alloc cfg = LAZY ->
  registered cfg a b = true -> registered cfg b a = true ->
  current_is m w a ->
  exists m' w',
    ping_pong cfg a b d 0 n m w = Returns tt m' w'
    /\ current_is m' w' (if Nat.even n then a else b)
    /\ length (trace w') = (length (trace w) + 3 * n)%nat
    /\ base.size (heap w') = base.size (heap w).
Proof.
  intros Hal Hab Hba Hcur.
  destruct (ping_pong_aligned cfg a b d n 0 m w Hal Hab Hba Hcur)
    as (m' & w' & evs & E & Hc & Ht & Hl & Hs & _).
  exists m', w'. split; [exact E|]. split; [exact Hc|].
  split; [|exact Hs]. rewrite Ht, length_app. lia.
Qed.

Lemma benchmark_loop_alternates_witness :
  exists m' w',
    ping_pong bench_cfg state_a state_b 0 0 5 machine_16 world_a
      = Returns tt m' w'
    /\ current_is m' w' state_b
    /\ length (trace w') = 15%nat
    /\ base.size (heap w') = 1%nat.
Proof.
  destruct (benchmark_loop_alternates bench_cfg state_a state_b 0 5
              machine_16 world_a eq_refl eq_refl eq_refl)
    as (m' & w' & E & Hc & Hl & Hs).
  - split; [discriminate|reflexivity].
  - exists m', w'. auto.
Defined.

(** *** Introspection *)

(** X19: [state<T>()] only reads: it returns with the machine and the store
    as they were, and what it returns is either null or the machine's own
    current handle; it is that handle exactly when the machine holds a live
    object whose class is T or derives from T. *)
Theorem state_only_reads cfg t m w q m' w' :
  state cfg t m w = Returns q m' w' ->
  m' = m /\ w' = w
  /\ (q = nullptr \/ q = p_current_state m)
  /\ (q <> nullptr <->
      exists c, current_is m w c /\ is_a cfg c t = true).
Proof.
  unfold state. rewrite bind_get_current. unfold dynamic_cast.
  destruct (N.eqb (p_current_state m) nullptr) eqn:E0.
  - unfold ret. intros H. injection H as <- <- <-.
    split; [reflexivity|]. split; [reflexivity|]. split; [auto|].
    split; [intros H; now elim H|].
    intros (c & [Hp _] & _). apply N.eqb_eq in E0. contradiction.
  - apply N.eqb_neq in E0. unfold_ops.
    destruct (heap w !! p_current_state m) as [c|] eqn:Hc; [|discriminate].
    intros H. injection H as <- <- <-.
    split; [reflexivity|]. split; [reflexivity|].
    destruct (is_a cfg c t) eqn:Hisa.
    + split; [auto|]. split; [|intros _; exact E0].
      intros _. exists c. split; [split; assumption|exact Hisa].
    + split; [auto|]. split; [intros H; now elim H|].
      intros (c' & [_ Hc'] & Hisa'). congruence.
Qed.

Lemma state_only_reads_witness :
  state derived_cfg state_a machine_16 world_b
    = Returns 16 machine_16 world_b
  /\ exists c, current_is machine_16 world_b c
               /\ is_a derived_cfg c state_a = true.
Proof.
  assert (E : state derived_cfg state_a machine_16 world_b
              = Returns 16 machine_16 world_b) by (vm_compute; reflexivity).
  split; [exact E|].
  destruct (state_only_reads derived_cfg state_a machine_16 world_b 16
              machine_16 world_b E) as (_ & _ & _ & Hiff).
  apply Hiff. discriminate.
Defined.

(** *** Generated identifiers and the pool *)

(** X20: when the declared state classes take their type identifiers from
    [gen_type_id] in declaration order, starting from a zero counter, the
    identifier of every declared class is its position among [states...]:
    it is in range for the pool and names the slot that holds the object of
    that class. *)
Theorem generated_ids_index_the_pool cfg bits s :
  N.of_nat (size cfg) <= 2 ^ bits ->
  map (fun c => N.of_nat (type_id cfg c)) (states cfg)
    = (gen_type_ids bits (size cfg) 0).1 ->
  In s (states cfg) ->
  (type_id cfg s < size cfg)%nat
  /\ states cfg !! type_id cfg s = Some s.
Proof.
  intros Hk Hids Hin.
  rewrite (gen_type_ids_from_zero bits (size cfg) Hk) in Hids.
  apply list_elem_of_In, list_elem_of_lookup in Hin as [i Hi].
  assert (Hlt : (i < size cfg)%nat) by (now apply lookup_lt_Some in Hi).
  assert (E : type_id cfg s = i).
  { apply (f_equal (fun l => l !! i)) in Hids.
    rewrite !list_lookup_fmap, Hi, lookup_seq_lt in Hids by exact Hlt.
    simpl in Hids. injection Hids as Hids. lia. }
  rewrite E. auto.
Qed.

Lemma generated_ids_index_the_pool_witness :
  (type_id int_cfg state_c < size int_cfg)%nat
  /\ states int_cfg !! type_id int_cfg state_c = Some state_c.
Proof.
  apply (generated_ids_index_the_pool int_cfg 64 state_c).
  - vm_compute. discriminate.
  - reflexivity.
  - simpl. auto.
Defined.

(** X21: under the internal strategy, once the pool is built, [transition]
    neither allocates nor releases: whether it returns or throws, the live
    objects and the pool are those from before the call, and a call that
    returns true has installed one of the pool's own objects. *)
Theorem internal_transition_reuses_the_pool cfg from_state to_state d m w slots :
  alloc cfg = INTERNAL -> pool_ w = Some slots ->
  registered cfg from_state to_state = true ->
  match transition cfg from_state to_state d m w with
  | Returns b m' w' =>
      heap w' = heap w /\ pool_ w' = pool_ w
      /\ (b = true -> In (p_current_state m') slots)
  | Throws _ _ w' => heap w' = heap w /\ pool_ w' = pool_ w
  | _ => True
  end.
Proof.
  intros Hal Hpool Hr. rewrite transition_outcome by exact Hr.
  destruct (N.eqb (p_current_state m) nullptr).
  { repeat split. discriminate. }
  destruct (heap w !! p_current_state m) as [c|]; [|exact I].
  destruct (is_a cfg c from_state).
  2:{ repeat split. discriminate. }
  assert (Eg : get_pool cfg m w = Returns slots m w).
  { unfold get_pool.
    rewrite (bind_returns _ _ _ _ (pool_ w) m w) by reflexivity.
    now rewrite Hpool. }
  unfold allocate_state. rewrite Hal. unfold state_of_internal.
  rewrite (bind_returns _ _ _ _ _ _ _ Eg).
  destruct (Nat.ltb _ _).
  - destruct (slots !! type_id cfg to_state) as [pn|] eqn:Hsl; [|exact I].
    unfold ret. destruct (N.eqb pn nullptr); [auto|].
    cbv zeta. destruct (heap w !! pn); [|exact I].
    simpl. repeat split. intros _.
    apply list_elem_of_In, list_elem_of_lookup. eauto.
  - unfold ret. simpl. auto.
Qed.

Lemma internal_transition_reuses_the_pool_witness :
  exists w',
    transition int_cfg state_a state_b 7 {| p_current_state := 1 |} world_pool
      = Returns true {| p_current_state := 2 |} w'
    /\ heap w' = heap world_pool.
Proof.
  pose proof (internal_transition_reuses_the_pool int_cfg state_a state_b 7
                {| p_current_state := 1 |} world_pool [1; 2; 3]
                eq_refl eq_refl eq_refl) as H.
  destruct (transition int_cfg state_a state_b 7 {| p_current_state := 1 |}
              world_pool) as [b m' w'| | |] eqn:E; try discriminate E.
  vm_compute in E. injection E as <- <- Ew.
  exists w'. split; [reflexivity|exact (proj1 H)].
Defined.

(** *** Loading one handle twice *)

(** X22: [load] copies the handle and nothing else, so two lazily allocated
    machines that load the same buffer hold the same object.  When one of
    them stops, the object is released, and the other is left with a
    dangling handle: its [stop] (which would delete the object a second
    time) and its introspection have undefined behaviour. *)
Theorem loading_twice_shares_the_object cfg buf datalen d m1 m2 w c :
  alloc cfg = LAZY ->
  (ptr_size cfg <= datalen)%nat -> (ptr_size cfg <= length buf)%nat ->
  current_is {| p_current_state := decode_ptr (take (ptr_size cfg) buf) |} w c ->
  exists m w',
    load cfg (Some buf) datalen m1 w = Returns (ptr_size cfg) m w
    /\ load cfg (Some buf) datalen m2 w = Returns (ptr_size cfg) m w
    /\ stop cfg d m w = Returns tt fresh_machine w'
    /\ heap w' !! p_current_state m = None
    /\ (forall d2, stop cfg d2 m w' = Undefined)
    /\ (forall t, state cfg t m w' = Undefined).
Proof.
  intros Hal H1 H2 Hcur. pose proof Hcur as [Hp Hc]. simpl in Hp, Hc.
  eexists _, _. split; [now apply load_reads|].
  split; [now apply load_reads|].
  set (p := decode_ptr (take (ptr_size cfg) buf)) in *.
  set (w' := {| heap := delete p (heap w); pool_ := pool_ w;
                trace := trace w ++ [on_exit c p d] |}).
  assert (Es : stop cfg d {| p_current_state := p |} w
               = Returns tt fresh_machine w').
  { unfold stop, delete_current_state, delete_pool. rewrite Hal.
    unfold_ops. simpl. rewrite (eqb_null_false _ Hp), Hc. simpl.
    now rewrite (eqb_null_false _ Hp), Hc. }
  split; [exact Es|]. simpl.
  assert (Hdead : heap w' !! p = None) by apply lookup_delete_eq.
  split; [exact Hdead|]. split.
  - intros d2. unfold stop.
    rewrite bind_get_current. simpl. rewrite (eqb_null_false _ Hp).
    unfold bind at 1. unfold_ops. subst w'. simpl.
    now rewrite lookup_delete_eq.
  - intros t. unfold state. rewrite bind_get_current. simpl.
    now apply dynamic_cast_dangling.
Qed.

Lemma loading_twice_shares_the_object_witness :
  exists m w',
    load lazy_cfg (Some (encode_ptr 8 16)) 8 fresh_machine world_a
      = Returns 8%nat m world_a
    /\ stop lazy_cfg 7 m world_a = Returns tt fresh_machine w'
    /\ stop lazy_cfg 7 m w' = Undefined.
Proof.
  destruct (loading_twice_shares_the_object lazy_cfg (encode_ptr 8 16) 8 7
              fresh_machine fresh_machine world_a state_a eq_refl)
    as (m & w' & El & _ & Es & _ & Hs & _).
  - simpl. lia.
  - simpl. lia.
  - split; [vm_compute; discriminate|vm_compute; reflexivity].
  - exists m, w'. auto.
Defined.

(** *** Bounds of the preallocated arrays *)

Lemma allocate_state_out_of_range cfg s m w :
  alloc cfg <> LAZY -> (size cfg <= type_id cfg s)%nat ->
  pool_intact w = true ->
  exists w1, allocate_state cfg s m w = Returns nullptr m w1.
Proof.
  intros Hal Hge Hi. apply Nat.ltb_ge in Hge.
  unfold allocate_state. destruct (alloc cfg); [congruence| |].
  - exists w. unfold state_of_pool. now rewrite Hge.
  - destruct (get_pool_spec cfg m w Hi) as (slots & w1 & Eg & _).
    exists w1. unfold state_of_internal.
    now rewrite (bind_returns _ _ _ _ _ _ _ Eg), Hge.
Qed.

(** X23: the preallocated strategies bound the type identifier by the number
    of declared states, not by the array: an identifier that is not below
    [sizeof...(states)] makes [start] throw, and makes a [transition] whose
    type check has passed throw before any hook; an identifier in range is
    used to index the caller's array unchecked, so a null array pointer or an
    array with fewer slots than declared states gives undefined
    behaviour. *)
Theorem type_id_is_checked_against_state_count cfg s from_state d m w c :
  alloc cfg <> LAZY -> pool_intact w = true ->
  is_valid_state cfg s = true ->
  ((size cfg <= type_id cfg s)%nat ->
     (exists w1,
        start cfg s d m w = Throws null_state_error fresh_machine w1)
     /\ (registered cfg from_state s = true -> current_is m w c ->
         is_a cfg c from_state = true ->
         exists w1,
           transition cfg from_state s d m w
             = Throws (allocation_error cfg) m w1
           /\ trace w1 = trace w))
  /\ (alloc cfg = PREALLOCED -> (type_id cfg s < size cfg)%nat ->
      (forall slots, state_pool cfg = Some slots ->
                     (type_id cfg s < length slots)%nat -> False) ->
      start cfg s d m w = Undefined).
Proof.
  intros Hal Hi Hv. split.
  - intros Hge.
    destruct (allocate_state_out_of_range cfg s m w Hal Hge Hi) as [w1 Ea].
    split.
    + exists w1. now apply (start_null_handle cfg s d m w m w1).
    + intros Hr Hcur Hisa. exists w1. split.
      * now apply (transition_null_handle cfg from_state s d m w c m w1).
      * now apply (only_allocates_allocate_state cfg s _ _ _ _ _ Ea).
  - intros Hpre Hlt Hshort. apply Nat.ltb_lt in Hlt.
    unfold start. rewrite Hv. simpl. unfold bind at 1.
    unfold allocate_state. rewrite Hpre. unfold state_of_pool. rewrite Hlt.
    destruct (state_pool cfg) as [slots|]; [|reflexivity].
    destruct (slots !! type_id cfg s) as [p|] eqn:Hsl; [|reflexivity].
    exfalso. apply (Hshort slots eq_refl). now apply lookup_lt_Some in Hsl.
Qed.

Lemma type_id_is_checked_against_state_count_witness :
  start (simple_cfg PREALLOCED (Some [16]) no_bases) state_b 7
        fresh_machine world_abc = Undefined
  /\ start (simple_cfg PREALLOCED None no_bases) state_a 7
        fresh_machine world_abc = Undefined
  /\ exists w1,
       transition shifted_cfg state_a state_b 7 machine_16 world_abc
         = Throws (allocation_error shifted_cfg) machine_16 w1.
Proof.
  split; [|split].
  - refine (proj2 (type_id_is_checked_against_state_count
                     (simple_cfg PREALLOCED (Some [16]) no_bases)
                     state_b state_a 7 fresh_machine world_abc state_a
                     _ _ _) _ _ _); try reflexivity.
    + discriminate.
    + vm_compute. lia.
    + intros slots H. injection H as <-. vm_compute. lia.
  - refine (proj2 (type_id_is_checked_against_state_count
                     (simple_cfg PREALLOCED None no_bases)
                     state_a state_a 7 fresh_machine world_abc state_a
                     _ _ _) _ _ _); try reflexivity.
    + discriminate.
    + vm_compute. lia.
    + intros slots H. discriminate H.
  - destruct (proj1 (type_id_is_checked_against_state_count shifted_cfg
                       state_b state_a 7 machine_16 world_abc state_a
                       ltac:(discriminate) eq_refl eq_refl))
      as [_ Ht].
    + vm_compute. lia.
    + destruct Ht as (w1 & E & _); [reflexivity| |reflexivity|].
      * split; [discriminate|reflexivity].
      * exists w1. exact E.
Defined.

(** *** The whole benchmark function *)

Lemma destroy_lazy cfg m w c :
  alloc cfg = LAZY -> current_is m w c ->
  destroy cfg m w =
    Returns tt fresh_machine
      {| heap := delete (p_current_state m) (heap w); pool_ := pool_ w;
         trace := trace w |}.
Proof.
  intros Hal [Hp Hc]. unfold destroy, delete_current_state, delete_pool.
  rewrite Hal. unfold_ops. simpl.
  rewrite (eqb_null_false _ Hp). simpl.
  rewrite (eqb_null_false _ Hp), Hc. reflexivity.
Qed.

Lemma ping_pong_second_run cfg a b d n m w :
  alloc cfg = LAZY ->
  registered cfg a b = true -> registered cfg b a = true ->
  is_a cfg b a = false ->
  current_is m w (if Nat.even n then a else b) ->
  exists m' w' c evs,
    ping_pong cfg a b d 0 n m w = Returns tt m' w'
    /\ current_is m' w' c
    /\ trace w' = trace w ++ evs
    /\ length evs = (3 * (if Nat.even n then n else n - 1))%nat
    /\ base.size (heap w') = base.size (heap w)
    /\ (Nat.even n = false ->
        transition cfg a b d m w = Returns false m w).
Proof.
  intros Hal Hab Hba Hisa Hcur.
  destruct (Nat.even n) eqn:Hev.
  - destruct (ping_pong_aligned cfg a b d n 0 m w Hal Hab Hba Hcur)
      as (m' & w' & evs & E & Hc & Ht & Hl & Hs & _).
    exists m', w', (if Nat.even (0 + n) then a else b), evs.
    split; [exact E|]. split; [exact Hc|]. split; [exact Ht|].
    split; [exact Hl|]. split; [exact Hs|]. discriminate.
  - destruct n as [|n]; [discriminate|]. cbn [ping_pong Nat.even].
    assert (E0 : transition cfg a b d m w = Returns false m w).
    { rewrite (transition_lazy cfg a b d m w b Hal Hab Hcur). now rewrite Hisa. }
    rewrite (bind_returns _ _ _ _ _ _ _ E0).
    destruct (ping_pong_aligned cfg a b d n 1 m w Hal Hab Hba Hcur)
      as (m' & w' & evs & E & Hc & Ht & Hl & Hs & _).
    exists m', w', (if Nat.even (1 + n) then a else b), evs.
    split; [exact E|]. split; [exact Hc|]. split; [exact Ht|].
    split; [rewrite Hl; f_equal; lia|]. split; [exact Hs|].
    intros _. exact E0.
Qed.

(** X24: the benchmark of the lazy strategy, from a freshly constructed
    machine, with both edges registered and B not derived from A, step by
    step.  [start] makes one call, [on_enter] of A.  The warm-up loop adds
    [3 * n] calls: all its [n] transitions fire.  The timed loop adds
    [3 * n] calls only when [n] is even: for an odd [n] it starts in state
    B, its first call returns false and it adds [3 * (n - 1)].  The
    destructor then releases the last state without any call into user
    code, so the trace of the whole function is the [on_enter] of [start]
    followed by the calls of the two loops, with no exit hook for the last
    state, and as many objects are live afterwards as before. *)
Theorem benchmark_counts_its_transitions cfg a b n w :
  alloc cfg = LAZY -> is_valid_state cfg a = true ->
  registered cfg a b = true -> registered cfg b a = true ->
  is_a cfg b a = false ->
  exists p0 w1 m2 w2 m3 w3 c evs1 evs2 w',
    start cfg a nullptr fresh_machine w
      = Returns tt {| p_current_state := p0 |} w1
    /\ trace w1 = trace w ++ [on_enter a p0 nullptr]
    /\ ping_pong cfg a b nullptr 0 n {| p_current_state := p0 |} w1
         = Returns tt m2 w2
    /\ trace w2 = trace w1 ++ evs1
    /\ length evs1 = (3 * n)%nat
    /\ current_is m2 w2 (if Nat.even n then a else b)
    /\ (Nat.even n = false ->
        transition cfg a b nullptr m2 w2 = Returns false m2 w2)
    /\ ping_pong cfg a b nullptr 0 n m2 w2 = Returns tt m3 w3
    /\ trace w3 = trace w2 ++ evs2
    /\ length evs2 = (3 * (if Nat.even n then n else n - 1))%nat
    /\ current_is m3 w3 c
    /\ destroy cfg m3 w3 = Returns tt fresh_machine w'
    /\ trace w' = trace w3
    /\ heap w' = delete (p_current_state m3) (heap w3)
    /\ benchmark_state_machine cfg a b n fresh_machine w
         = Returns tt fresh_machine w'
    /\ trace w' = trace w ++ [on_enter a p0 nullptr] ++ evs1 ++ evs2
    /\ base.size (heap w') = base.size (heap w).
Proof.
  intros Hal Hv Hab Hba Hisa.
  destruct (allocate_state_lazy cfg a fresh_machine w Hal)
    as (Ea & Hpn & Hfresh).
  set (pn := operator_new cfg (heap w)) in *.
  pose proof (start_returns cfg a nullptr fresh_machine w pn fresh_machine _ a
                Hv Ea Hpn (lookup_insert_eq _ _ _)) as Es.
  simpl in Es.
  set (m1 := {| p_current_state := pn |}) in *.
  set (w1 := {| heap := <[pn := a]> (heap w); pool_ := pool_ w;
                trace := trace w ++ [on_enter a pn nullptr] |}) in *.
  assert (Hc1 : current_is m1 w1 a).
  { split; [exact Hpn|]. simpl. apply lookup_insert_eq. }
  destruct (ping_pong_aligned cfg a b nullptr n 0 m1 w1 Hal Hab Hba Hc1)
    as (m2 & w2 & evs1 & E2 & Hc2 & Ht2 & Hl2 & Hs2 & _).
  destruct (ping_pong_second_run cfg a b nullptr n m2 w2 Hal Hab Hba Hisa Hc2)
    as (m3 & w3 & c & evs2 & E3 & Hc3 & Ht3 & Hl3 & Hs3 & Hfirst).
  pose proof (destroy_lazy cfg m3 w3 c Hal Hc3) as Ed.
  exists pn, w1, m2, w2, m3, w3, c, evs1, evs2.
  eexists.
  split; [exact Es|]. split; [reflexivity|]. split; [exact E2|].
  split; [exact Ht2|]. split; [exact Hl2|]. split; [exact Hc2|].
  split; [exact Hfirst|]. split; [exact E3|]. split; [exact Ht3|].
  split; [exact Hl3|]. split; [exact Hc3|]. split; [exact Ed|].
  simpl. split; [reflexivity|]. split; [reflexivity|]. split.
  { unfold benchmark_state_machine.
    rewrite (bind_returns _ _ _ _ _ _ _ Es), (bind_returns _ _ _ _ _ _ _ E2),
      (bind_returns _ _ _ _ _ _ _ E3).
    exact Ed. }
  split.
  - rewrite Ht3, Ht2. unfold w1. simpl. now rewrite <- !app_assoc.
  - rewrite map_size_delete_Some by (destruct Hc3 as [_ H]; eauto).
    rewrite Hs3, Hs2. unfold w1. simpl.
    now rewrite map_size_insert_None.
Qed.

Lemma benchmark_counts_its_transitions_witness :
  exists p0 evs1 evs2 w',
    benchmark_state_machine bench_cfg state_a state_b 3 fresh_machine world_0
      = Returns tt fresh_machine w'
    /\ trace w' = [on_enter state_a p0 nullptr] ++ evs1 ++ evs2
    /\ length evs1 = 9%nat
    /\ length evs2 = 6%nat
    /\ base.size (heap w') = 0%nat.
Proof.
  destruct (benchmark_counts_its_transitions bench_cfg state_a state_b 3
              world_0 eq_refl eq_refl eq_refl eq_refl eq_refl)
    as (p0 & w1 & m2 & w2 & m3 & w3 & c & evs1 & evs2 & w' & _ & _ & _ & _
        & Hl1 & _ & _ & _ & _ & Hl2 & _ & _ & _ & _ & E & Ht & Hs).
  exists p0, evs1, evs2, w'. auto.
Defined.
